(** * Room canvas layout engine

    A shallow embedding of the geometry code of the room canvas
    (RoomCanvas component: [rectanglesOverlap], [isInsideRoom],
    [getRoomPath], the [Door] wall table and the [handleMouseMove]
    interaction handler) and of [legsToBackend] of the L-shape editor.

    JavaScript numbers are modelled as exact rationals ([Q]): every
    arithmetic operation of the source is the corresponding operation on
    [Q], comparisons are the decidable comparisons on [Q], and
    [Math.round x] is [floor (x + 1/2)].  Rounding error, NaN and the
    infinities of IEEE doubles are outside the model; where the source
    divides, the theorems assume a non-zero divisor. *)

From Stdlib Require Import QArith Qminmax Qround Lqa ZArith Lia.
From Stdlib Require Import List String Bool.
Import ListNotations.

Local Open Scope Q_scope.

(** ** Numbers *)

Module Num.

(** [a < b] on numbers, as a boolean. *)
Definition ltb (a b : Q) : bool := negb (Qle_bool b a).

(** [a > b]. *)
Definition gtb (a b : Q) : bool := ltb b a.

(** [a !== b] on numbers. *)
Definition neqb (a b : Q) : bool := negb (Qeq_bool a b).

(** Truthiness of a number: every number but zero. *)
Definition truthy (a : Q) : bool := neqb a 0.

(** [a || d] on numbers. *)
Definition orElse (a d : Q) : Q := if truthy a then a else d.

(** [Math.round]: the nearest integer, halves rounded up. *)
Definition round (a : Q) : Q := inject_Z (Qfloor (a + (1 # 2))).

End Num.

(** ** Types of the room model *)

Inductive RoomShape : Type := rectangle | l_shape.

Inductive CutoutCorner : Type := top_left | top_right | bottom_left | bottom_right.

Inductive DoorWall : Type :=
  north | south | east | west | cutout_horizontal | cutout_vertical.

(** The geometry fields shared by [StorageUnitBrief] and [BlockBrief];
    label, type and rotation take no part in the layout code. *)
Record Placed : Type := mkPlaced {
  id : string;
  x : Q;
  y : Q;
  width : Q;
  height : Q
}.

(** A [number | null | undefined] argument is truthy when it is present
    and not zero. *)
Definition truthyNum (o : option Q) : bool :=
  match o with
  | Some q => Num.truthy q
  | None => false
  end.

(** A [CutoutCorner | null | undefined] argument is truthy when present. *)
Definition truthyCorner (o : option CutoutCorner) : bool :=
  match o with
  | Some _ => true
  | None => false
  end.

(** [cutoutWidth || 0]. *)
Definition numOrZero (o : option Q) : Q :=
  match o with
  | Some q => q
  | None => 0
  end.

Definition shape_eqb (a b : RoomShape) : bool :=
  match a, b with
  | rectangle, rectangle | l_shape, l_shape => true
  | _, _ => false
  end.

(** ** Geometry primitives *)

Definition tolerance : Q := 1 # 100.

(** [rectanglesOverlap]. *)
Definition rectanglesOverlap (x1 y1 w1 h1 x2 y2 w2 h2 : Q) : bool :=
  Num.ltb x1 (x2 + w2 - tolerance) &&
  Num.gtb (x1 + w1) (x2 + tolerance) &&
  Num.ltb y1 (y2 + h2 - tolerance) &&
  Num.gtb (y1 + h1) (y2 + tolerance).

(** The [switch] on the corner in [isInsideRoom]: the cutout rectangle
    [(cutoutX1, cutoutY1, cutoutX2, cutoutY2)]; the four variables keep
    their initial value 0 when no case matches. *)
Definition cutoutRect (roomWidth roomHeight cw ch : Q)
    (cutoutCorner : option CutoutCorner) : Q * Q * Q * Q :=
  match cutoutCorner with
  | Some top_right => (roomWidth - cw, 0, roomWidth, ch)
  | Some top_left => (0, 0, cw, ch)
  | Some bottom_right =>
      (roomWidth - cw, roomHeight - ch, roomWidth, roomHeight)
  | Some bottom_left => (0, roomHeight - ch, cw, roomHeight)
  | None => (0, 0, 0, 0)
  end.

(** [isInsideRoom]. *)
Definition isInsideRoom (x y width height roomWidth roomHeight : Q)
    (shape : RoomShape) (cutoutWidth cutoutHeight : option Q)
    (cutoutCorner : option CutoutCorner) : bool :=
  if Num.ltb x 0 || Num.ltb y 0 || Num.gtb (x + width) roomWidth
     || Num.gtb (y + height) roomHeight
  then false
  else if shape_eqb shape rectangle || negb (truthyNum cutoutWidth)
          || negb (truthyNum cutoutHeight) || negb (truthyCorner cutoutCorner)
  then true
  else
    let cw := numOrZero cutoutWidth in
    let ch := numOrZero cutoutHeight in
    let '(cutoutX1, cutoutY1, cutoutX2, cutoutY2) :=
      cutoutRect roomWidth roomHeight cw ch cutoutCorner in
    let overlapsWithCutout :=
      Num.ltb x cutoutX2 && Num.gtb (x + width) cutoutX1 &&
      Num.ltb y cutoutY2 && Num.gtb (y + height) cutoutY1 in
    negb overlapsWithCutout.

(** ** Room outline *)

(** One command of an SVG path; [getRoomPath] builds its string from
    these, in this order. *)
Inductive PathCmd : Type :=
  | MoveTo (px py : Q)
  | LineTo (px py : Q)
  | ClosePath.

(** [cutoutCorner === c]. *)
Definition cornerIs (o : option CutoutCorner) (c : CutoutCorner) : bool :=
  match o, c with
  | Some top_left, top_left | Some top_right, top_right
  | Some bottom_left, bottom_left | Some bottom_right, bottom_right => true
  | _, _ => false
  end.

(** [getRoomPath]. *)
Definition getRoomPath (width height scale : Q) (shape : RoomShape)
    (cutoutWidth cutoutHeight : option Q)
    (cutoutCorner : option CutoutCorner) : list PathCmd :=
  let w := width * scale in
  let h := height * scale in
  if shape_eqb shape rectangle || negb (truthyNum cutoutWidth)
     || negb (truthyNum cutoutHeight)
  then [MoveTo 0 0; LineTo w 0; LineTo w h; LineTo 0 h; ClosePath]
  else
    let cw := numOrZero cutoutWidth * scale in
    let ch := numOrZero cutoutHeight * scale in
    match cutoutCorner with
    | Some top_right =>
        [MoveTo 0 0; LineTo (w - cw) 0; LineTo (w - cw) ch; LineTo w ch;
         LineTo w h; LineTo 0 h; ClosePath]
    | Some top_left =>
        [MoveTo cw 0; LineTo w 0; LineTo w h; LineTo 0 h; LineTo 0 ch;
         LineTo cw ch; ClosePath]
    | Some bottom_right =>
        [MoveTo 0 0; LineTo w 0; LineTo w (h - ch); LineTo (w - cw) (h - ch);
         LineTo (w - cw) h; LineTo 0 h; ClosePath]
    | Some bottom_left =>
        [MoveTo 0 0; LineTo w 0; LineTo w h; LineTo cw h; LineTo cw (h - ch);
         LineTo 0 (h - ch); ClosePath]
    | None =>
        [MoveTo 0 0; LineTo (w - cw) 0; LineTo (w - cw) ch; LineTo w ch;
         LineTo w h; LineTo 0 h; ClosePath]
    end.

(** ** The door *)

(** The swing arc [M from A r r 0 0 sweep to] of the door. *)
Record Arc : Type := mkArc {
  arcFrom : Q * Q;
  arcRadius : Q;
  arcSweep : bool;
  arcTo : Q * Q
}.

(** What the [Door] component computes before it renders: the hinge, the
    end of the leaf, the swing arc, the opening in the wall, and the
    effective length and offset of the wall it sits on. *)
Record DoorGeometry : Type := mkDoorGeometry {
  hingeX : Q;
  hingeY : Q;
  leafEndX : Q;
  leafEndY : Q;
  arcPath : option Arc;
  openingX : Q;
  openingY : Q;
  openingW : Q;
  openingH : Q;
  wallLength : Q;
  wallOffset : Q
}.

Definition wallThickness : Q := 4.

(** [shape === 'l_shape' && cutoutWidth && cutoutHeight && cutoutCorner],
    as a condition. *)
Definition isLShape (shape : RoomShape) (cutoutWidth cutoutHeight : option Q)
    (cutoutCorner : option CutoutCorner) : bool :=
  shape_eqb shape l_shape && truthyNum cutoutWidth && truthyNum cutoutHeight
  && truthyCorner cutoutCorner.

(** The values of the geometry variables of [Door] before its [switch]. *)
Definition doorInitial : DoorGeometry :=
  mkDoorGeometry 0 0 0 0 None 0 0 0 0 0 0.

(** The body of the [Door] component up to its [return]. *)
Definition Door (wall : DoorWall) (position doorWidth roomWidth roomHeight
    scale : Q) (shape : RoomShape) (cutoutWidth cutoutHeight : option Q)
    (cutoutCorner : option CutoutCorner) : DoorGeometry :=
  let dw := doorWidth * scale in
  let rw := roomWidth * scale in
  let rh := roomHeight * scale in
  let cw := numOrZero cutoutWidth * scale in
  let ch := numOrZero cutoutHeight * scale in
  let isL := isLShape shape cutoutWidth cutoutHeight cutoutCorner in
  match wall with
  | north =>
      let '(wallLength, wallOffset) :=
        if isL && (cornerIs cutoutCorner top_left
                   || cornerIs cutoutCorner top_right)
        then (rw - cw, if cornerIs cutoutCorner top_left then cw else 0)
        else (rw, 0) in
      let hingeX := wallOffset + position * wallLength - dw / 2 in
      mkDoorGeometry hingeX 0 hingeX dw
        (Some (mkArc (hingeX + dw, 0) dw true (hingeX, dw)))
        hingeX (- wallThickness) dw (wallThickness * 2)
        wallLength wallOffset
  | south =>
      let '(wallLength, wallOffset) :=
        if isL && (cornerIs cutoutCorner bottom_left
                   || cornerIs cutoutCorner bottom_right)
        then (rw - cw, if cornerIs cutoutCorner bottom_left then cw else 0)
        else (rw, 0) in
      let hingeX := wallOffset + position * wallLength - dw / 2 in
      mkDoorGeometry hingeX rh hingeX (rh - dw)
        (Some (mkArc (hingeX + dw, rh) dw false (hingeX, rh - dw)))
        hingeX (rh - wallThickness) dw (wallThickness * 2)
        wallLength wallOffset
  | east =>
      let '(wallLength, wallOffset) :=
        if isL && (cornerIs cutoutCorner top_right
                   || cornerIs cutoutCorner bottom_right)
        then (rh - ch, if cornerIs cutoutCorner top_right then ch else 0)
        else (rh, 0) in
      let hingeY := wallOffset + position * wallLength - dw / 2 in
      mkDoorGeometry rw hingeY (rw - dw) hingeY
        (Some (mkArc (rw - dw, hingeY) dw false (rw, hingeY + dw)))
        (rw - wallThickness) hingeY (wallThickness * 2) dw
        wallLength wallOffset
  | west =>
      let '(wallLength, wallOffset) :=
        if isL && (cornerIs cutoutCorner top_left
                   || cornerIs cutoutCorner bottom_left)
        then (rh - ch, if cornerIs cutoutCorner top_left then ch else 0)
        else (rh, 0) in
      let hingeY := wallOffset + position * wallLength - dw / 2 in
      mkDoorGeometry 0 hingeY dw hingeY
        (Some (mkArc (dw, hingeY) dw true (0, hingeY + dw)))
        (- wallThickness) hingeY (wallThickness * 2) dw
        wallLength wallOffset
  | cutout_horizontal =>
      if negb isL then doorInitial
      else
        let wallLength := cw in
        let top := cornerIs cutoutCorner top_left
                   || cornerIs cutoutCorner top_right in
        let left := cornerIs cutoutCorner top_left
                    || cornerIs cutoutCorner bottom_left in
        let wallY := if top then ch else rh - ch in
        let wallStartX := if left then 0 else rw - cw in
        let swingDown := top in
        let hingeX := wallStartX + position * wallLength - dw / 2 in
        mkDoorGeometry hingeX wallY hingeX
          (if swingDown then wallY + dw else wallY - dw)
          (Some (if swingDown
                 then mkArc (hingeX + dw, wallY) dw true (hingeX, wallY + dw)
                 else mkArc (hingeX + dw, wallY) dw false (hingeX, wallY - dw)))
          hingeX (wallY - wallThickness) dw (wallThickness * 2)
          wallLength 0
  | cutout_vertical =>
      if negb isL then doorInitial
      else
        let wallLength := ch in
        let left := cornerIs cutoutCorner top_left
                    || cornerIs cutoutCorner bottom_left in
        let top := cornerIs cutoutCorner top_left
                   || cornerIs cutoutCorner top_right in
        let wallX := if left then cw else rw - cw in
        let wallStartY := if top then 0 else rh - ch in
        let swingRight := left in
        let hingeY := wallStartY + position * wallLength - dw / 2 in
        mkDoorGeometry wallX hingeY
          (if swingRight then wallX + dw else wallX - dw) hingeY
          (Some (if swingRight
                 then mkArc (wallX, hingeY + dw) dw false (wallX + dw, hingeY)
                 else mkArc (wallX, hingeY + dw) dw true (wallX - dw, hingeY)))
          (wallX - wallThickness) hingeY (wallThickness * 2) dw
          wallLength 0
  end.

(** ** The canvas: props, state and derived settings *)

Inductive DragType : Type :=
  drag_unit | drag_block | drag_door | resize_unit | resize_block.

(** The [dragging] state; [handle] is the only resize handle ['se'] when
    set. *)
Record Dragging : Type := mkDragging {
  dragType : DragType;
  dragId : option string;
  handle : bool;
  startX : option Q;
  startY : option Q;
  startWidth : option Q;
  startHeight : option Q
}.

Record LocalSize : Type := mkLocalSize {
  sizeId : string;
  sizeWidth : Q;
  sizeHeight : Q
}.

Record LocalPosition : Type := mkLocalPosition {
  posId : string;
  posX : Q;
  posY : Q
}.

(** The props of [RoomCanvas] that the handler reads; a callback prop is
    recorded by whether it was passed. *)
Record Props : Type := mkProps {
  propWidth : Q;
  propHeight : Q;
  units : list Placed;
  blocks : list Placed;
  shape : RoomShape;
  shapeCutoutWidth : option Q;
  shapeCutoutHeight : option Q;
  shapeCutoutCorner : option CutoutCorner;
  doorWidth : option Q;
  onUnitMove : bool;
  onBlockMove : bool;
  onDoorMove : bool
}.

(** The component state that the handler reads and writes. *)
Record State : Type := mkState {
  dragging : option Dragging;
  dragOffset : Q * Q;
  localDoorWall : option DoorWall;
  localDoorPosition : option Q;
  localSize : option LocalSize;
  localPosition : option LocalPosition
}.

(** A call of one of the callback props. *)
Inductive Callback : Type :=
  | CallUnitMove (unitId : string) (cx cy : Q)
  | CallBlockMove (blockId : string) (cx cy : Q)
  | CallDoorMove (wall : DoorWall) (position : Q).

Definition canvasWidth : Q := 800.
Definition canvasHeight : Q := 600.

Definition roomWidth (p : Props) : Q := Num.orElse (propWidth p) 10.
Definition roomHeight (p : Props) : Q := Num.orElse (propHeight p) 10.

Definition scale (p : Props) : Q :=
  Qmin (canvasWidth / roomWidth p) (canvasHeight / roomHeight p) * (85 # 100).

Definition offsetX (p : Props) : Q := (canvasWidth - roomWidth p * scale p) / 2.
Definition offsetY (p : Props) : Q := (canvasHeight - roomHeight p * scale p) / 2.

(** [doorWidth || 1], for a prop that may also be [null]. *)
Definition doorWidthOrOne (p : Props) : Q :=
  match doorWidth p with
  | Some q => Num.orElse q 1
  | None => 1
  end.

(** [units.find(u => u.id === id)]. *)
Definition findById (l : list Placed) (i : string) : option Placed :=
  find (fun u => String.eqb (id u) i) l.

(** ** Distances to walls

    The distance to a perimeter wall is a difference of coordinates; the
    distance to an internal wall is a square root, kept here as its
    radicand; it is [Infinity] when the room has no internal walls. *)
Inductive Dist : Type :=
  | Plain (d : Q)
  | Root (d2 : Q)
  | Infinity.

(** [a < b] on distances, for a non-negative radicand. *)
Definition dist_ltb (a b : Dist) : bool :=
  match a, b with
  | Infinity, _ => false
  | _, Infinity => true
  | Plain d, Plain e => Num.ltb d e
  | Plain d, Root e2 => Num.ltb d 0 || Num.ltb (d * d) e2
  | Root d2, Plain e => Num.gtb e 0 && Num.ltb d2 (e * e)
  | Root d2, Root e2 => Num.ltb d2 e2
  end.

(** [Math.max(lo, Math.min(hi, v))]. *)
Definition clamp (lo hi v : Q) : Q := Qmax lo (Qmin hi v).

(** The wall distances [allDistances] of the door branch, in the order of
    the array. *)
Definition allDistances (p : Props) (localX localY : Q)
  : list (DoorWall * Dist) :=
  let rw := roomWidth p * scale p in
  let rh := roomHeight p * scale p in
  let cw := numOrZero (shapeCutoutWidth p) * scale p in
  let ch := numOrZero (shapeCutoutHeight p) * scale p in
  let corner := shapeCutoutCorner p in
  let isL := isLShape (shape p) (shapeCutoutWidth p) (shapeCutoutHeight p)
               corner in
  let distToNorth := localY in
  let distToSouth := rh - localY in
  let distToWest := localX in
  let distToEast := rw - localX in
  let '(distToCutoutH, distToCutoutV) :=
    if isL then
      let top := cornerIs corner top_left || cornerIs corner top_right in
      let left := cornerIs corner top_left || cornerIs corner bottom_left in
      let cutoutHY := if top then ch else rh - ch in
      let cutoutHStartX := if left then 0 else rw - cw in
      let cutoutHEndX := cutoutHStartX + cw in
      let clampedHX := clamp cutoutHStartX cutoutHEndX localX in
      let dxH := localX - clampedHX in
      let dyH := localY - cutoutHY in
      let cutoutVX := if left then cw else rw - cw in
      let cutoutVStartY := if top then 0 else rh - ch in
      let cutoutVEndY := cutoutVStartY + ch in
      let clampedVY := clamp cutoutVStartY cutoutVEndY localY in
      let dxV := localX - cutoutVX in
      let dyV := localY - clampedVY in
      (Root (dxH * dxH + dyH * dyH), Root (dxV * dxV + dyV * dyV))
    else (Infinity, Infinity) in
  [ (north, Plain distToNorth); (south, Plain distToSouth);
    (west, Plain distToWest); (east, Plain distToEast);
    (cutout_horizontal, distToCutoutH); (cutout_vertical, distToCutoutV) ].

(** [allDistances.reduce((min, curr) => curr.dist < min.dist ? curr : min)]. *)
Definition closest (ds : list (DoorWall * Dist)) : option (DoorWall * Dist) :=
  match ds with
  | [] => None
  | d :: rest =>
      Some (fold_left
              (fun min curr => if dist_ltb (snd curr) (snd min) then curr else min)
              rest d)
  end.

(** The [switch (newWall)] of the door branch: the scaled length and
    offset of the wall, and the normalized position of the pointer on it. *)
Definition wallTable (p : Props) (newWall : DoorWall) (localX localY : Q)
  : Q * Q * Q :=
  let rw := roomWidth p * scale p in
  let rh := roomHeight p * scale p in
  let cw := numOrZero (shapeCutoutWidth p) * scale p in
  let ch := numOrZero (shapeCutoutHeight p) * scale p in
  let corner := shapeCutoutCorner p in
  let isL := isLShape (shape p) (shapeCutoutWidth p) (shapeCutoutHeight p)
               corner in
  match newWall with
  | north =>
      let '(wallLengthScaled, wallOffsetScaled) :=
        if isL && (cornerIs corner top_left || cornerIs corner top_right)
        then (rw - cw, if cornerIs corner top_left then cw else 0)
        else (rw, 0) in
      (wallLengthScaled, wallOffsetScaled,
       (localX - wallOffsetScaled) / wallLengthScaled)
  | south =>
      let '(wallLengthScaled, wallOffsetScaled) :=
        if isL && (cornerIs corner bottom_left || cornerIs corner bottom_right)
        then (rw - cw, if cornerIs corner bottom_left then cw else 0)
        else (rw, 0) in
      (wallLengthScaled, wallOffsetScaled,
       (localX - wallOffsetScaled) / wallLengthScaled)
  | west =>
      let '(wallLengthScaled, wallOffsetScaled) :=
        if isL && (cornerIs corner top_left || cornerIs corner bottom_left)
        then (rh - ch, if cornerIs corner top_left then ch else 0)
        else (rh, 0) in
      (wallLengthScaled, wallOffsetScaled,
       (localY - wallOffsetScaled) / wallLengthScaled)
  | east =>
      let '(wallLengthScaled, wallOffsetScaled) :=
        if isL && (cornerIs corner top_right || cornerIs corner bottom_right)
        then (rh - ch, if cornerIs corner top_right then ch else 0)
        else (rh, 0) in
      (wallLengthScaled, wallOffsetScaled,
       (localY - wallOffsetScaled) / wallLengthScaled)
  | cutout_horizontal =>
      let wallLengthScaled := cw in
      let wallOffsetScaled :=
        if cornerIs corner top_left || cornerIs corner bottom_left
        then 0 else rw - cw in
      (wallLengthScaled, wallOffsetScaled,
       (localX - wallOffsetScaled) / wallLengthScaled)
  | cutout_vertical =>
      let wallLengthScaled := ch in
      let wallOffsetScaled :=
        if cornerIs corner top_left || cornerIs corner top_right
        then 0 else rh - ch in
      (wallLengthScaled, wallOffsetScaled,
       (localY - wallOffsetScaled) / wallLengthScaled)
  end.

(** The clamp of the door branch: keeps the door inside the wall. *)
Definition clampDoor (p : Props) (wallLengthScaled newPos : Q) : Q :=
  let effectiveWallLength := wallLengthScaled / scale p in
  let doorW := doorWidthOrOne p / effectiveWallLength in
  Qmax (doorW / 2 + (2 # 100)) (Qmin (1 - doorW / 2 - (2 # 100)) newPos).

(** ** The interaction handler *)

(** [isValidPosition] of the unit branch: the unit [unit] placed at
    [(px, py)]. *)
Definition isValidPositionUnit (p : Props) (unit : Placed) (px py : Q) : bool :=
  if negb (isInsideRoom px py (width unit) (height unit) (roomWidth p)
             (roomHeight p) (shape p) (shapeCutoutWidth p)
             (shapeCutoutHeight p) (shapeCutoutCorner p))
  then false
  else
    let collidesWithUnit :=
      existsb (fun other =>
        negb (String.eqb (id other) (id unit)) &&
        rectanglesOverlap px py (width unit) (height unit)
          (x other) (y other) (width other) (height other)) (units p) in
    let collidesWithBlock :=
      existsb (fun block =>
        rectanglesOverlap px py (width unit) (height unit)
          (x block) (y block) (width block) (height block)) (blocks p) in
    negb collidesWithUnit && negb collidesWithBlock.

(** [isValidPosition] of the block branch. *)
Definition isValidPositionBlock (p : Props) (block : Placed) (px py : Q)
  : bool :=
  if negb (isInsideRoom px py (width block) (height block) (roomWidth p)
             (roomHeight p) (shape p) (shapeCutoutWidth p)
             (shapeCutoutHeight p) (shapeCutoutCorner p))
  then false
  else
    let collidesWithBlock :=
      existsb (fun other =>
        negb (String.eqb (id other) (id block)) &&
        rectanglesOverlap px py (width block) (height block)
          (x other) (y other) (width other) (height other)) (blocks p) in
    let collidesWithUnit :=
      existsb (fun u =>
        rectanglesOverlap px py (width block) (height block)
          (x u) (y u) (width u) (height u)) (units p) in
    negb collidesWithBlock && negb collidesWithUnit.

(** The choice of [(finalX, finalY)] in the unit and the block branch
    (the same statements in both): the full movement first, then each
    axis on its own. *)
Definition finalPosition (isValidPosition : Q -> Q -> bool)
    (currentX currentY clampedX clampedY : Q) : Q * Q :=
  let finalX := currentX in
  let finalY := currentY in
  if isValidPosition clampedX clampedY
  then (clampedX, clampedY)
  else
    let finalX := if isValidPosition clampedX currentY
                  then clampedX else finalX in
    let finalY := if isValidPosition currentX clampedY
                  then clampedY else finalY in
    (finalX, finalY).

(** The drag of one element [el] (a unit or a block): the position
    [(finalX, finalY)] from the pointer [(svgPx, svgPy)]. *)
Definition dragFinal (p : Props) (s : State)
    (isValidPosition : Q -> Q -> bool) (el : Placed) (svgPx svgPy : Q)
  : Q * Q * (Q * Q) :=
  let currentX := match localPosition s with
                  | Some lp => posX lp | None => x el end in
  let currentY := match localPosition s with
                  | Some lp => posY lp | None => y el end in
  let newX := (svgPx - offsetX p - fst (dragOffset s)) / scale p in
  let newY := (svgPy - offsetY p - snd (dragOffset s)) / scale p in
  let clampedX := Qmax 0 (Qmin (roomWidth p - width el) newX) in
  let clampedY := Qmax 0 (Qmin (roomHeight p - height el) newY) in
  (currentX, currentY,
   finalPosition isValidPosition currentX currentY clampedX clampedY).

Definition setLocalPosition (s : State) (lp : LocalPosition) : State :=
  mkState (dragging s) (dragOffset s) (localDoorWall s) (localDoorPosition s)
    (localSize s) (Some lp).

Definition setLocalSize (s : State) (ls : LocalSize) : State :=
  mkState (dragging s) (dragOffset s) (localDoorWall s) (localDoorPosition s)
    (Some ls) (localPosition s).

Definition setLocalDoor (s : State) (wall : DoorWall) (pos : Q) : State :=
  mkState (dragging s) (dragOffset s) (Some wall) (Some pos)
    (localSize s) (localPosition s).

(** [localSize?.width || element.width] and the same for the height. *)
Definition keptWidth (s : State) (element : Placed) : Q :=
  match localSize s with
  | Some ls => Num.orElse (sizeWidth ls) (width element)
  | None => width element
  end.

Definition keptHeight (s : State) (element : Placed) : Q :=
  match localSize s with
  | Some ls => Num.orElse (sizeHeight ls) (height element)
  | None => height element
  end.

(** The raw size of the resize branch: the size at the start of the
    gesture plus the pointer delta in meters. *)
Definition rawSize (p : Props) (d : Dragging) (svgPx svgPy : Q) : Q * Q :=
  let deltaX := (svgPx - numOrZero (startX d)) / scale p in
  let deltaY := (svgPy - numOrZero (startY d)) / scale p in
  let startWidth := match startWidth d with
                    | Some w => Num.orElse w 1 | None => 1 end in
  let startHeight := match startHeight d with
                     | Some h => Num.orElse h 1 | None => 1 end in
  (startWidth + deltaX, startHeight + deltaY).

(** The size proposed by the pointer in the resize branch, before the
    element is looked up: floored at 0.5 and rounded to 0.1. *)
Definition proposedSize (p : Props) (d : Dragging) (svgPx svgPy : Q) : Q * Q :=
  let '(rawWidth, rawHeight) := rawSize p d svgPx svgPy in
  let newWidth := Qmax (5 # 10) rawWidth in
  let newHeight := Qmax (5 # 10) rawHeight in
  (Num.round (newWidth * 10) / 10, Num.round (newHeight * 10) / 10).

(** The rest of the resize branch for the element found: the cap at the
    room's bounding box, the room-shape check and the collision check.
    [isUnit] tells a unit resize from a block resize. *)
Definition resizeElement (p : Props) (s : State) (isUnit : bool)
    (element : Placed) (newWidth newHeight : Q) : Q * Q :=
  let maxWidth := roomWidth p - x element in
  let maxHeight := roomHeight p - y element in
  let newWidth := Qmin newWidth maxWidth in
  let newHeight := Qmin newHeight maxHeight in
  let '(newWidth, newHeight) :=
    if negb (isInsideRoom (x element) (y element) newWidth newHeight
               (roomWidth p) (roomHeight p) (shape p) (shapeCutoutWidth p)
               (shapeCutoutHeight p) (shapeCutoutCorner p))
    then (keptWidth s element, keptHeight s element)
    else (newWidth, newHeight) in
  let overlaps other :=
    rectanglesOverlap (x element) (y element) newWidth newHeight
      (x other) (y other) (width other) (height other) in
  let notSelf other := negb (String.eqb (id other) (id element)) in
  if isUnit then
    let collidesWithUnit :=
      existsb (fun other => notSelf other && overlaps other) (units p) in
    let collidesWithBlock := existsb overlaps (blocks p) in
    if collidesWithUnit || collidesWithBlock
    then (keptWidth s element, keptHeight s element)
    else (newWidth, newHeight)
  else
    let collidesWithBlock :=
      existsb (fun other => notSelf other && overlaps other) (blocks p) in
    let collidesWithUnit := existsb overlaps (units p) in
    if collidesWithBlock || collidesWithUnit
    then (keptWidth s element, keptHeight s element)
    else (newWidth, newHeight).

(** [dragging.id] as a condition: a string that is set and not empty. *)
Definition truthyId (o : option string) : option string :=
  match o with
  | Some EmptyString => None
  | other => other
  end.

(** [handleMouseMove], for a mounted canvas, at the pointer
    [(svgPx, svgPy)] in canvas coordinates: the next state and the
    callbacks called. *)
Definition handleMouseMove (p : Props) (s : State) (svgPx svgPy : Q)
  : State * list Callback :=
  match dragging s with
  | None => (s, [])
  | Some d =>
      match dragType d, truthyId (dragId d) with
      | drag_door, _ =>
          let localX := svgPx - offsetX p in
          let localY := svgPy - offsetY p in
          match closest (allDistances p localX localY) with
          | None => (s, [])
          | Some (newWall, _) =>
              let '(wallLengthScaled, _, newPos) :=
                wallTable p newWall localX localY in
              let newPos := clampDoor p wallLengthScaled newPos in
              (setLocalDoor s newWall newPos,
               if onDoorMove p then [CallDoorMove newWall newPos] else [])
          end
      | drag_unit, Some i =>
          match findById (units p) i with
          | None => (s, [])
          | Some unit =>
              let '(currentX, currentY, (finalX, finalY)) :=
                dragFinal p s (isValidPositionUnit p unit) unit svgPx svgPy in
              if Num.neqb finalX currentX || Num.neqb finalY currentY
              then (setLocalPosition s (mkLocalPosition i finalX finalY),
                    if onUnitMove p then [CallUnitMove i finalX finalY] else [])
              else (s, [])
          end
      | drag_block, Some i =>
          match findById (blocks p) i with
          | None => (s, [])
          | Some block =>
              let '(currentX, currentY, (finalX, finalY)) :=
                dragFinal p s (isValidPositionBlock p block) block svgPx svgPy in
              if Num.neqb finalX currentX || Num.neqb finalY currentY
              then (setLocalPosition s (mkLocalPosition i finalX finalY),
                    if onBlockMove p then [CallBlockMove i finalX finalY] else [])
              else (s, [])
          end
      | resize_unit, Some i =>
          if negb (handle d) then (s, [])
          else
            let '(newWidth, newHeight) := proposedSize p d svgPx svgPy in
            let '(newWidth, newHeight) :=
              match findById (units p) i with
              | Some element => resizeElement p s true element newWidth newHeight
              | None => (newWidth, newHeight)
              end in
            (setLocalSize s (mkLocalSize i newWidth newHeight), [])
      | resize_block, Some i =>
          if negb (handle d) then (s, [])
          else
            let '(newWidth, newHeight) := proposedSize p d svgPx svgPy in
            let '(newWidth, newHeight) :=
              match findById (blocks p) i with
              | Some element => resizeElement p s false element newWidth newHeight
              | None => (newWidth, newHeight)
              end in
            (setLocalSize s (mkLocalSize i newWidth newHeight), [])
      | _, None => (s, [])
      end
  end.

(** ** The L-shape editor *)

Record LShapeConfig : Type := mkLShapeConfig {
  orientation : CutoutCorner;
  verticalLegWidth : Q;
  verticalLegHeight : Q;
  horizontalLegWidth : Q;
  horizontalLegHeight : Q
}.

(** The result [{ width, height, cutoutWidth, cutoutHeight }] of
    [legsToBackend]. *)
Record Backend : Type := mkBackend {
  backendWidth : Q;
  backendHeight : Q;
  backendCutoutWidth : Q;
  backendCutoutHeight : Q
}.

(** [legsToBackend]. *)
Definition legsToBackend (config : LShapeConfig) : Backend :=
  let width := Qmax (verticalLegWidth config) (horizontalLegWidth config) in
  let height := verticalLegHeight config + horizontalLegHeight config in
  let cutoutWidth :=
    match orientation config with
    | top_right | bottom_right => width - verticalLegWidth config
    | _ => width - verticalLegWidth config
    end in
  let cutoutHeight := height - horizontalLegHeight config in
  let cutoutWidth := Qmax 0 cutoutWidth in
  let cutoutHeight := Qmax 0 cutoutHeight in
  mkBackend width height cutoutWidth cutoutHeight.

(** The shape invariant of the data model: [0 < cw < W] and [0 < ch < H]. *)
Definition shapeInvariant (W H cw ch : Q) : Prop :=
  0 < cw /\ cw < W /\ 0 < ch /\ ch < H.

(** ** Starting and ending a gesture *)

(** The props and the permission that the mouse-down and mouse-up
    handlers read besides [Props]: whether the user may edit, which of the
    persisting callbacks were passed, and the door wall stored with the
    room. *)
Record Handlers : Type := mkHandlers {
  canEdit : bool;
  onUnitMoveEnd : bool;
  onUnitResize : bool;
  onBlockMoveEnd : bool;
  onBlockResize : bool;
  onDoorMoveEnd : bool;
  doorWall : option DoorWall
}.

Definition setDragging (s : State) (d : option Dragging) : State :=
  mkState d (dragOffset s) (localDoorWall s) (localDoorPosition s)
    (localSize s) (localPosition s).

Definition setDragOffset (s : State) (o : Q * Q) : State :=
  mkState (dragging s) o (localDoorWall s) (localDoorPosition s)
    (localSize s) (localPosition s).

(** [handleUnitMouseDown], for a mounted canvas, at the pointer
    [(svgPx, svgPy)]. *)
Definition handleUnitMouseDown (p : Props) (h : Handlers) (s : State)
    (unit : Placed) (svgPx svgPy : Q) : State :=
  if negb (canEdit h) || (negb (onUnitMove p) && negb (onUnitMoveEnd h))
  then s
  else
    let s := setDragging s
               (Some (mkDragging drag_unit (Some (id unit)) false
                        None None None None)) in
    let s := setDragOffset s
               (svgPx - offsetX p - x unit * scale p,
                svgPy - offsetY p - y unit * scale p) in
    setLocalPosition s (mkLocalPosition (id unit) (x unit) (y unit)).

(** [handleBlockMouseDown]. *)
Definition handleBlockMouseDown (p : Props) (h : Handlers) (s : State)
    (block : Placed) (svgPx svgPy : Q) : State :=
  if negb (canEdit h) || (negb (onBlockMove p) && negb (onBlockMoveEnd h))
  then s
  else
    let s := setDragging s
               (Some (mkDragging drag_block (Some (id block)) false
                        None None None None)) in
    let s := setDragOffset s
               (svgPx - offsetX p - x block * scale p,
                svgPy - offsetY p - y block * scale p) in
    setLocalPosition s (mkLocalPosition (id block) (x block) (y block)).


(** [handleUnitResizeMouseDown]; the handle is always ['se']. *)
Definition handleUnitResizeMouseDown (h : Handlers) (s : State)
    (unit : Placed) (svgPx svgPy : Q) : State :=
  if negb (canEdit h) || negb (onUnitResize h) then s
  else
    let s := setDragging s
               (Some (mkDragging resize_unit (Some (id unit)) true
                        (Some svgPx) (Some svgPy)
                        (Some (width unit)) (Some (height unit)))) in
    setLocalSize s (mkLocalSize (id unit) (width unit) (height unit)).

(** [handleBlockResizeMouseDown]. *)
Definition handleBlockResizeMouseDown (h : Handlers) (s : State)
    (block : Placed) (svgPx svgPy : Q) : State :=
  if negb (canEdit h) || negb (onBlockResize h) then s
  else
    let s := setDragging s
               (Some (mkDragging resize_block (Some (id block)) true
                        (Some svgPx) (Some svgPy)
                        (Some (width block)) (Some (height block)))) in
    setLocalSize s (mkLocalSize (id block) (width block) (height block)).

(** A call of one of the persisting callback props. *)
Inductive EndCallback : Type :=
  | CallDoorMoveEnd (wall : DoorWall) (position : Q)
  | CallUnitMoveEnd (unitId : string) (cx cy : Q)
  | CallBlockMoveEnd (blockId : string) (cx cy : Q)
  | CallUnitResize (unitId : string) (w h : Q)
  | CallBlockResize (blockId : string) (w h : Q).

(** [dragging?.type === t]. *)
Definition draggingIs (s : State) (t : DragType) : bool :=
  match dragging s with
  | Some d =>
      match dragType d, t with
      | drag_unit, drag_unit | drag_block, drag_block
      | drag_door, drag_door | resize_unit, resize_unit
      | resize_block, resize_block => true
      | _, _ => false
      end
  | None => false
  end.

(** [dragging.id] of the gesture, when it is set and not empty. *)
Definition draggingId (s : State) : option string :=
  match dragging s with
  | Some d => truthyId (dragId d)
  | None => None
  end.

(** [handleMouseUp]: the callbacks called, in order, the state after the
    five resets, and the value given to [setWasDragging] (the timer that
    clears the flag again is not modelled). *)
Definition handleMouseUp (h : Handlers) (s : State)
  : State * list EndCallback * bool :=
  let wasDragging := match dragging s with Some _ => true | None => false end in
  let door :=
    match localDoorPosition s with
    | Some pos =>
        if draggingIs s drag_door && onDoorMoveEnd h then
          match (match localDoorWall s with
                 | Some w => Some w
                 | None => doorWall h
                 end) with
          | Some wallToUse => [CallDoorMoveEnd wallToUse pos]
          | None => []
          end
        else []
    | None => []
    end in
  let unitMove :=
    match draggingId s, localPosition s with
    | Some i, Some lp =>
        if draggingIs s drag_unit && onUnitMoveEnd h
        then [CallUnitMoveEnd i (posX lp) (posY lp)] else []
    | _, _ => []
    end in
  let blockMove :=
    match draggingId s, localPosition s with
    | Some i, Some lp =>
        if draggingIs s drag_block && onBlockMoveEnd h
        then [CallBlockMoveEnd i (posX lp) (posY lp)] else []
    | _, _ => []
    end in
  let unitResize :=
    match draggingId s, localSize s with
    | Some i, Some ls =>
        if draggingIs s resize_unit && onUnitResize h
        then [CallUnitResize i (sizeWidth ls) (sizeHeight ls)] else []
    | _, _ => []
    end in
  let blockResize :=
    match draggingId s, localSize s with
    | Some i, Some ls =>
        if draggingIs s resize_block && onBlockResize h
        then [CallBlockResize i (sizeWidth ls) (sizeHeight ls)] else []
    | _, _ => []
    end in
  (mkState None (dragOffset s) None None None None,
   door ++ unitMove ++ blockMove ++ unitResize ++ blockResize,
   wasDragging).

(** ** The L-shape editor: legs, preview and mounting *)

(** [backendToLegs]. *)
Definition backendToLegs (width height : Q) (cutoutWidth cutoutHeight : option Q)
    (orientation : CutoutCorner) : LShapeConfig :=
  let cw := match cutoutWidth with
            | Some q => Num.orElse q (width * (4 # 10))
            | None => width * (4 # 10)
            end in
  let ch := match cutoutHeight with
            | Some q => Num.orElse q (height * (4 # 10))
            | None => height * (4 # 10)
            end in
  mkLShapeConfig orientation (width - cw) ch width (height - ch).

(** The configuration the editor starts with, from its props. *)
Definition initialConfig (totalWidth totalHeight : Q)
    (cutoutCorner : option CutoutCorner) (cutoutWidth cutoutHeight : option Q)
  : LShapeConfig :=
  backendToLegs (Num.orElse totalWidth 10) (Num.orElse totalHeight 10)
    cutoutWidth cutoutHeight
    (match cutoutCorner with Some c => c | None => bottom_right end).

(** [totalArea] of [LivePreview]. *)
Definition totalArea (config : LShapeConfig) : Q :=
  let width := Qmax (verticalLegWidth config) (horizontalLegWidth config) in
  let height := verticalLegHeight config + horizontalLegHeight config in
  width * height
  - (width - verticalLegWidth config) * (height - horizontalLegHeight config).

(** ** The initial position of a new unit *)

(** The fields of [Room] that [getValidInitialPosition] reads. *)
Record Room : Type := mkRoom {
  room_width : option Q;
  room_height : option Q;
  room_shape : RoomShape;
  shape_cutout_width : option Q;
  shape_cutout_height : option Q;
  shape_cutout_corner : option CutoutCorner
}.

(** [n || d] for a number that may be [null]. *)
Definition nullOrElse (o : option Q) (d : Q) : Q :=
  match o with
  | Some q => Num.orElse q d
  | None => d
  end.

(** [getValidInitialPosition]. *)
Definition getValidInitialPosition (currentRoom : option Room)
    (unitWidth unitHeight : Q) : Q * Q :=
  match currentRoom with
  | None => (0, 0)
  | Some r =>
      let roomW := nullOrElse (room_width r) 10 in
      let roomH := nullOrElse (room_height r) 10 in
      let isL := shape_eqb (room_shape r) l_shape in
      let cutoutW := nullOrElse (shape_cutout_width r) 0 in
      let cutoutH := nullOrElse (shape_cutout_height r) 0 in
      let corner := shape_cutout_corner r in
      let fallback := (5 # 10, 5 # 10) in
      if isL && Num.truthy cutoutW && Num.truthy cutoutH && truthyCorner corner
      then
        let margin := 5 # 10 in
        let corners :=
          [ (margin, margin, cornerIs corner top_left);
            (roomW - unitWidth - margin, margin, cornerIs corner top_right);
            (margin, roomH - unitHeight - margin, cornerIs corner bottom_left);
            (roomW - unitWidth - margin, roomH - unitHeight - margin,
             cornerIs corner bottom_right) ] in
        match find (fun c : Q * Q * bool =>
                      let '(cx, cy, blocked) := c in
                      negb blocked && Qle_bool 0 cx && Qle_bool 0 cy) corners with
        | Some (cx, cy, _) => (cx, cy)
        | None => fallback
        end
      else fallback
  end.

(** ** Vocabulary of the properties *)

(** The length of the overlap of two rectangles on the x axis and on the
    y axis: the length of the intersection of their spans. *)
Definition overlapX (x1 w1 x2 w2 : Q) : Q :=
  Qmin (x1 + w1) (x2 + w2) - Qmax x1 x2.

Definition overlapY (y1 h1 y2 h2 : Q) : Q :=
  Qmin (y1 + h1) (y2 + h2) - Qmax y1 y2.

(** The rectangles share an edge: a side of one lies on the line of the
    opposite side of the other. *)
Definition shareEdge (x1 y1 w1 h1 x2 y2 w2 h2 : Q) : Prop :=
  x1 + w1 == x2 \/ x2 + w2 == x1 \/ y1 + h1 == y2 \/ y2 + h2 == y1.

(** The four candidates of a drag tick tried in order, each one only
    when the ones before it are invalid. *)
Definition cascade (isValidPosition : Q -> Q -> bool)
    (currentX currentY clampedX clampedY : Q) : Q * Q :=
  if isValidPosition clampedX clampedY then (clampedX, clampedY)
  else if isValidPosition clampedX currentY then (clampedX, currentY)
  else if isValidPosition currentX clampedY then (currentX, clampedY)
  else (currentX, currentY).

(** The cutout of an L-shape room as a rectangle [(x, y, w, h)] anchored
    at its corner of the [W] x [H] bounding box. *)
Definition cutoutAt (W H cw ch : Q) (c : CutoutCorner) : Q * Q * Q * Q :=
  match c with
  | top_left => (0, 0, cw, ch)
  | top_right => (W - cw, 0, cw, ch)
  | bottom_left => (0, H - ch, cw, ch)
  | bottom_right => (W - cw, H - ch, cw, ch)
  end.

(** The rectangle lies within [[0,W] x [0,H]]. *)
Definition withinBox (rx ry rw rh W H : Q) : Prop :=
  0 <= rx /\ 0 <= ry /\ rx + rw <= W /\ ry + rh <= H.

(** The rectangle and the cutout overlap by a positive amount on both
    axes (no tolerance). *)
Definition overlapsCutout (rx ry rw rh : Q) (cut : Q * Q * Q * Q) : Prop :=
  let '(cx, cy, cw, ch) := cut in
  rx < cx + cw /\ cx < rx + rw /\ ry < cy + ch /\ cy < ry + rh.

(** The test as C4 words it: inside the bounding box, and no overlap with
    the cutout under the tolerance of [rectanglesOverlap]. *)
Definition insideRoomWithTolerance (rx ry rw rh W H cw ch : Q)
    (c : CutoutCorner) : bool :=
  let '(cx, cy, cw', ch') := cutoutAt W H cw ch c in
  Qle_bool 0 rx && Qle_bool 0 ry && Qle_bool (rx + rw) W
  && Qle_bool (ry + rh) H
  && negb (rectanglesOverlap rx ry rw rh cx cy cw' ch').

(** The element [el] with the size [(w, h)] lies inside the room shape
    and overlaps no other unit or block; an element is told from the
    others of its kind by its id. *)
Definition validSize (p : Props) (isUnit : bool) (el : Placed) (w h : Q)
  : bool :=
  let free other :=
    negb (rectanglesOverlap (x el) (y el) w h
            (x other) (y other) (width other) (height other)) in
  let other_of_kind other := String.eqb (id other) (id el) || free other in
  isInsideRoom (x el) (y el) w h (roomWidth p) (roomHeight p) (shape p)
    (shapeCutoutWidth p) (shapeCutoutHeight p) (shapeCutoutCorner p)
  && forallb (if isUnit then other_of_kind else free) (units p)
  && forallb (if isUnit then free else other_of_kind) (blocks p).

(** The size committed by the previous tick of a resize: the local size
    when there is one, the element's own size before the first tick. *)
Definition previousSize (s : State) (el : Placed) : Q * Q :=
  match localSize s with
  | Some ls => (sizeWidth ls, sizeHeight ls)
  | None => (width el, height el)
  end.

(** The [<Door .../>] element of the canvas for the wall and position
    shown. *)
Definition renderDoor (p : Props) (wall : DoorWall) (position : Q)
  : DoorGeometry :=
  Door wall position (doorWidthOrOne p) (roomWidth p) (roomHeight p) (scale p)
    (shape p) (shapeCutoutWidth p) (shapeCutoutHeight p) (shapeCutoutCorner p).

(** The effective length of a wall in meters, from its scaled length. *)
Definition effectiveWallLength (p : Props) (wallLengthScaled : Q) : Q :=
  wallLengthScaled / scale p.

(** The bounds of the clamp of the door position: half the door's share
    of the wall plus the margin 0.02, from either end. *)
Definition marginLow (p : Props) (wallLengthScaled : Q) : Q :=
  doorWidthOrOne p / effectiveWallLength p wallLengthScaled / 2 + (2 # 100).

Definition marginHigh (p : Props) (wallLengthScaled : Q) : Q :=
  1 - doorWidthOrOne p / effectiveWallLength p wallLengthScaled / 2 - (2 # 100).

Definition perimeter (w : DoorWall) : bool :=
  match w with
  | north | south | east | west => true
  | cutout_horizontal | cutout_vertical => false
  end.

Definition horizontal (w : DoorWall) : bool :=
  match w with
  | north | south | cutout_horizontal => true
  | east | west | cutout_vertical => false
  end.

(** The perimeter wall [w] runs into the cutout at corner [c]. *)
Definition adjacent (w : DoorWall) (c : CutoutCorner) : bool :=
  match w, c with
  | north, (top_left | top_right) => true
  | south, (bottom_left | bottom_right) => true
  | west, (top_left | bottom_left) => true
  | east, (top_right | bottom_right) => true
  | _, _ => false
  end.

(** The cutout at corner [c] sits at the start of wall [w]: the left end
    of a horizontal wall, the top end of a vertical one. *)
Definition atStart (w : DoorWall) (c : CutoutCorner) : bool :=
  match w, c with
  | (north | west), top_left => true
  | south, bottom_left => true
  | east, top_right => true
  | _, _ => false
  end.

(** The full scaled length of the side of the bounding box along [w], and
    the scaled extent of the cutout along it. *)
Definition fullLength (p : Props) (w : DoorWall) : Q :=
  if horizontal w then roomWidth p * scale p else roomHeight p * scale p.

Definition cutoutExtent (p : Props) (w : DoorWall) : Q :=
  if horizontal w then numOrZero (shapeCutoutWidth p) * scale p
  else numOrZero (shapeCutoutHeight p) * scale p.

(** The coordinate of a point along the wall. *)
Definition alongWall (w : DoorWall) (px py : Q) : Q :=
  if horizontal w then px else py.

(** The position of the rendered door on its wall: the middle of its
    opening, along the wall. *)
Definition doorCentre (w : DoorWall) (g : DoorGeometry) : Q :=
  if horizontal w then openingX g + openingW g / 2
  else openingY g + openingH g / 2.

(** The wall is one of the room: the internal walls need an L-shape. *)
Definition wallExists (p : Props) (w : DoorWall) : bool :=
  perimeter w
  || isLShape (shape p) (shapeCutoutWidth p) (shapeCutoutHeight p)
       (shapeCutoutCorner p).

(** The start and the extent of the door's opening along its wall. *)
Definition openingStart (w : DoorWall) (g : DoorGeometry) : Q :=
  if horizontal w then openingX g else openingY g.

Definition openingExtent (w : DoorWall) (g : DoorGeometry) : Q :=
  if horizontal w then openingW g else openingH g.

(** The square of the distance between two points, and the dot product
    of the vectors from a point [o] to two points. *)
Definition sqDist (a b : Q * Q) : Q :=
  (fst a - fst b) * (fst a - fst b) + (snd a - snd b) * (snd a - snd b).

Definition dotFrom (o a b : Q * Q) : Q :=
  (fst a - fst o) * (fst b - fst o) + (snd a - snd o) * (snd b - snd o).

(** The vertices of a path, in order. *)
Definition pathVertices (path : list PathCmd) : list (Q * Q) :=
  flat_map (fun c => match c with
                     | MoveTo px py | LineTo px py => [(px, py)]
                     | ClosePath => []
                     end) path.

(** The point [v] of the canvas lies strictly inside the rectangle
    [(rx, ry, rw, rh)] of the room drawn at scale [sc]. *)
Definition strictlyInside (sc rx ry rw rh : Q) (v : Q * Q) : Prop :=
  rx * sc < fst v /\ fst v < (rx + rw) * sc /\
  ry * sc < snd v /\ snd v < (ry + rh) * sc.

(** The cross product of the vectors from a point [o] to two points:
    positive when the turn from the first to the second is in the
    direction of growing angles, which on the canvas, with y downwards, is
    the direction of an arc whose sweep flag is 1. *)
Definition crossFrom (o a b : Q * Q) : Q :=
  (fst a - fst o) * (snd b - snd o) - (snd a - snd o) * (fst b - fst o).

(** ** Scenarios *)

(** A 10 x 10 rectangle room with two 4 x 4 units: A at the origin, being
    dragged, and B at (4, 4). *)
Module DragScenario.

Local Open Scope string_scope.

Definition unitA : Placed := mkPlaced "A" 0 0 4 4.
Definition unitB : Placed := mkPlaced "B" 4 4 4 4.

Definition props : Props :=
  mkProps 10 10 [unitA; unitB] [] rectangle None None None (Some 1)
    true true true.

(** The drag of A has started at its corner. *)
Definition state : State :=
  mkState (Some (mkDragging drag_unit (Some "A") false None None None None))
    (0, 0) None None None (Some (mkLocalPosition "A" 0 0)).

(** The pointer that proposes the position (2, 2): the room is drawn at
    scale 51 with its corner at (145, 45). *)
Definition pointerX : Q := 145 + 2 * 51.
Definition pointerY : Q := 45 + 2 * 51.

End DragScenario.

(** Scenario F: a 10 x 10 rectangle room with a 2 x 2 block at the
    origin, being resized from its bottom-right handle, and a sibling
    block 2 x 2 at (2.5, 0). *)
Module ResizeScenario.

Local Open Scope string_scope.

Definition block : Placed := mkPlaced "b1" 0 0 2 2.
Definition sibling : Placed := mkPlaced "b2" (25 # 10) 0 2 2.

Definition props : Props :=
  mkProps 10 10 [] [block; sibling] rectangle None None None (Some 1)
    true true true.

(** The gesture started with the pointer on the handle, at
    (145 + 2 * 51, 45 + 2 * 51) on the canvas. *)
Definition gesture : Dragging :=
  mkDragging resize_block (Some "b1") true (Some 247) (Some 147)
    (Some 2) (Some 2).

Definition state : State :=
  mkState (Some gesture) (0, 0) None None (Some (mkLocalSize "b1" 2 2)) None.

(** The pointer one meter further right and down: it proposes 3 x 3. *)
Definition pointerX : Q := 247 + 51.
Definition pointerY : Q := 147 + 51.

End ResizeScenario.

(** A 10 x 10 rectangle room with a door 12 m wide, dragged with the
    pointer on the middle of the north wall. *)
Module WideDoorScenario.

Definition props : Props :=
  mkProps 10 10 [] [] rectangle None None None (Some 12) true true true.

Definition state : State :=
  mkState (Some (mkDragging drag_door None false None None None None))
    (0, 0) None None None None.

Definition pointerX : Q := 145 + 5 * 51.
Definition pointerY : Q := 45.

End WideDoorScenario.

(** The room of scenarios C and D: 10 x 10 with a 4 x 4 cutout at the
    bottom right. *)
Module LShapeScenario.

Definition props : Props :=
  mkProps 10 10 [] [] l_shape (Some 4) (Some 4) (Some bottom_right)
    (Some 1) true true true.

End LShapeScenario.

(** A 10 x 10 L-shape room with a cutout 0.5 wide and 4 high at the
    bottom right and a door 1 m wide, dragged with the pointer on the
    horizontal internal wall, which is 0.5 m long. *)
Module NarrowWallScenario.

Definition props : Props :=
  mkProps 10 10 [] [] l_shape (Some (1 # 2)) (Some 4) (Some bottom_right)
    (Some 1) true true true.

Definition state : State :=
  mkState (Some (mkDragging drag_door None false None None None None))
    (0, 0) None None None None.

Definition pointerX : Q := 145 + 497.
Definition pointerY : Q := 45 + 6 * 51.

End NarrowWallScenario.

(** * Properties *)

(** ** Numbers *)

Module NumFacts.

Lemma ltb_lt a b : Num.ltb a b = true <-> a < b.
Proof.
  unfold Num.ltb. rewrite negb_true_iff.
  split; intro H.
  - apply Qnot_le_lt. intro Hle. apply Qle_bool_iff in Hle. congruence.
  - destruct (Qle_bool b a) eqn:E; [|reflexivity].
    apply Qle_bool_iff in E. lra.
Qed.

Lemma ltb_ge a b : Num.ltb a b = false <-> b <= a.
Proof.
  unfold Num.ltb. rewrite negb_false_iff. apply Qle_bool_iff.
Qed.

Lemma gtb_gt a b : Num.gtb a b = true <-> b < a.
Proof. apply ltb_lt. Qed.

Lemma gtb_le a b : Num.gtb a b = false <-> a <= b.
Proof. apply ltb_ge. Qed.

Lemma truthy_true a : Num.truthy a = true <-> ~ a == 0.
Proof.
  unfold Num.truthy, Num.neqb. rewrite negb_true_iff.
  split; intro H.
  - intro E. apply Qeq_bool_iff in E. congruence.
  - destruct (Qeq_bool a 0) eqn:E; [|reflexivity].
    apply Qeq_bool_iff in E. contradiction.
Qed.

Lemma truthy_false a : Num.truthy a = false <-> a == 0.
Proof.
  unfold Num.truthy, Num.neqb. rewrite negb_false_iff. apply Qeq_bool_iff.
Qed.

End NumFacts.

(** Turns the boolean comparisons of the goal and the context into
    inequalities on [Q], case by case. *)
Ltac cmp_cases :=
  repeat match goal with
  | |- context [Num.ltb ?a ?b] =>
      let E := fresh "E" in
      destruct (Num.ltb a b) eqn:E;
      [apply NumFacts.ltb_lt in E | apply NumFacts.ltb_ge in E]
  | |- context [Num.gtb ?a ?b] =>
      let E := fresh "E" in
      destruct (Num.gtb a b) eqn:E;
      [apply NumFacts.gtb_gt in E | apply NumFacts.gtb_le in E]
  end.

(** Splits on which argument a [Qmin] or [Qmax] of the goal or context
    returns. *)
Ltac minmax_cases :=
  repeat match goal with
  | |- context [Qmin ?a ?b] =>
      let m := fresh "m" in
      destruct (Q.min_spec a b) as [[? ?] | [? ?]];
      set (m := Qmin a b) in *; clearbody m
  | |- context [Qmax ?a ?b] =>
      let m := fresh "m" in
      destruct (Q.max_spec a b) as [[? ?] | [? ?]];
      set (m := Qmax a b) in *; clearbody m
  | H : context [Qmin ?a ?b] |- _ =>
      let m := fresh "m" in
      destruct (Q.min_spec a b) as [[? ?] | [? ?]];
      set (m := Qmin a b) in *; clearbody m
  | H : context [Qmax ?a ?b] |- _ =>
      let m := fresh "m" in
      destruct (Q.max_spec a b) as [[? ?] | [? ?]];
      set (m := Qmax a b) in *; clearbody m
  end.

(** ** The overlap test *)

Section Overlap.

Variables x1 y1 w1 h1 x2 y2 w2 h2 : Q.

(** The test is exactly the four strict inequalities of the source. *)
Lemma rectanglesOverlap_spec :
  rectanglesOverlap x1 y1 w1 h1 x2 y2 w2 h2 = true <->
  x1 < x2 + w2 - tolerance /\ x2 + tolerance < x1 + w1 /\
  y1 < y2 + h2 - tolerance /\ y2 + tolerance < y1 + h1.
Proof.
  unfold rectanglesOverlap.
  rewrite !andb_true_iff, !NumFacts.ltb_lt, !NumFacts.gtb_gt. tauto.
Qed.

Lemma shareEdge_no_overlap :
  shareEdge x1 y1 w1 h1 x2 y2 w2 h2 ->
  rectanglesOverlap x1 y1 w1 h1 x2 y2 w2 h2 = false.
Proof.
  intros Hedge.
  destruct (rectanglesOverlap x1 y1 w1 h1 x2 y2 w2 h2) eqn:E; [|reflexivity].
  apply rectanglesOverlap_spec in E. unfold shareEdge, tolerance in *.
  lra.
Qed.

Lemma deep_overlap :
  tolerance < overlapX x1 w1 x2 w2 -> tolerance < overlapY y1 h1 y2 h2 ->
  rectanglesOverlap x1 y1 w1 h1 x2 y2 w2 h2 = true.
Proof.
  unfold overlapX, overlapY. intros HX HY.
  apply rectanglesOverlap_spec. unfold tolerance in *.
  minmax_cases; lra.
Qed.

Lemma shallow_no_overlap :
  tolerance < w1 -> tolerance < h1 -> tolerance < w2 -> tolerance < h2 ->
  overlapX x1 w1 x2 w2 <= tolerance \/ overlapY y1 h1 y2 h2 <= tolerance ->
  rectanglesOverlap x1 y1 w1 h1 x2 y2 w2 h2 = false.
Proof.
  unfold overlapX, overlapY. intros Hw1 Hh1 Hw2 Hh2 H.
  destruct (rectanglesOverlap x1 y1 w1 h1 x2 y2 w2 h2) eqn:E; [|reflexivity].
  apply rectanglesOverlap_spec in E. unfold tolerance in *.
  minmax_cases; lra.
Qed.

End Overlap.

(** C8, amended.  For rectangles whose widths and heights all exceed the
    tolerance 0.01, [rectanglesOverlap] is false when the rectangles share
    an edge or when their overlap on some axis is at most 0.01, and true
    when they overlap by more than 0.01 on both axes. *)
Theorem C8_overlap_tolerance (x1 y1 w1 h1 x2 y2 w2 h2 : Q) :
  tolerance < w1 -> tolerance < h1 -> tolerance < w2 -> tolerance < h2 ->
  (shareEdge x1 y1 w1 h1 x2 y2 w2 h2 ->
   rectanglesOverlap x1 y1 w1 h1 x2 y2 w2 h2 = false) /\
  (overlapX x1 w1 x2 w2 <= tolerance \/ overlapY y1 h1 y2 h2 <= tolerance ->
   rectanglesOverlap x1 y1 w1 h1 x2 y2 w2 h2 = false) /\
  (tolerance < overlapX x1 w1 x2 w2 /\ tolerance < overlapY y1 h1 y2 h2 ->
   rectanglesOverlap x1 y1 w1 h1 x2 y2 w2 h2 = true).
Proof.
  intros Hw1 Hh1 Hw2 Hh2. split; [|split].
  - apply shareEdge_no_overlap.
  - now apply shallow_no_overlap.
  - intros [HX HY]. now apply deep_overlap.
Qed.

(** Two 2 x 2 rectangles tiled flush along x = 2. *)
Lemma C8_overlap_tolerance_witness :
  rectanglesOverlap 0 0 2 2 2 0 2 2 = false.
Proof.
  assert (Ht : tolerance < 2) by (unfold tolerance; lra).
  refine (proj1 (C8_overlap_tolerance 0 0 2 2 2 0 2 2 Ht Ht Ht Ht) _).
  left. lra.
Defined.

(** C8 as stated fails for a rectangle thinner than the tolerance: a
    strip of width 0.005 inside a 3 x 3 rectangle overlaps it by 0.005 on
    the x axis, and the test answers true. *)
Lemma C8_thin_rectangle_counterexample :
  overlapX 1 (5 # 1000) 0 3 <= tolerance /\
  rectanglesOverlap 1 1 (5 # 1000) 1 0 0 3 3 = true.
Proof.
  split.
  - unfold overlapX, tolerance. minmax_cases; lra.
  - reflexivity.
Qed.

(** ** The rectangle-inside-room test *)

Lemma isInsideRoom_box (rx ry rw rh W H : Q) shape ocw och oc :
  isInsideRoom rx ry rw rh W H shape ocw och oc = true ->
  withinBox rx ry rw rh W H.
Proof.
  unfold isInsideRoom, withinBox. cmp_cases; simpl; try discriminate.
  intros _. lra.
Qed.

(** A room counts as a rectangle for [isInsideRoom] exactly when
    [isLShape] is false. *)
Lemma rectangle_guard shape ocw och oc :
  shape_eqb shape rectangle || negb (truthyNum ocw) || negb (truthyNum och)
  || negb (truthyCorner oc) = negb (isLShape shape ocw och oc).
Proof.
  unfold isLShape.
  destruct shape, (truthyNum ocw), (truthyNum och), (truthyCorner oc);
    reflexivity.
Qed.

Lemma isLShape_true shape ocw och oc :
  isLShape shape ocw och oc = true <->
  shape = l_shape /\
  exists cw ch c, ocw = Some cw /\ och = Some ch /\ oc = Some c /\
                  ~ cw == 0 /\ ~ ch == 0.
Proof.
  unfold isLShape. rewrite !andb_true_iff. split.
  - intros [[[Hs Hw] Hh] Hc].
    destruct shape; [discriminate|]. split; [reflexivity|].
    destruct ocw as [cw|]; [|discriminate].
    destruct och as [ch|]; [|discriminate].
    destruct oc as [c|]; [|discriminate].
    exists cw, ch, c. simpl in *.
    apply NumFacts.truthy_true in Hw, Hh. auto.
  - intros [-> (cw & ch & c & -> & -> & -> & Hw & Hh)]. simpl.
    apply NumFacts.truthy_true in Hw, Hh. auto.
Qed.

(** C4, amended.  [isInsideRoom] is true exactly when the rectangle lies
    within [[0,W] x [0,H]] and, in an L-shape room with its cutout set,
    does not overlap the cutout rectangle; this overlap test is exact, with
    strict inequalities and no tolerance, so a rectangle touching the
    cutout edge is inside and one entering the cutout on both axes by any
    positive amount is not. *)
Theorem C4_inside_room_exact (rx ry rw rh W H : Q) (shape : RoomShape)
    (ocw och : option Q) (oc : option CutoutCorner) :
  isInsideRoom rx ry rw rh W H shape ocw och oc = true <->
  withinBox rx ry rw rh W H /\
  forall cw ch c,
    shape = l_shape -> ocw = Some cw -> och = Some ch -> oc = Some c ->
    ~ cw == 0 -> ~ ch == 0 ->
    ~ overlapsCutout rx ry rw rh (cutoutAt W H cw ch c).
Proof.
  split.
  - intros Hin. split; [eapply isInsideRoom_box; eassumption|].
    intros cw ch c -> -> -> -> Hw Hh Hov.
    apply NumFacts.truthy_true in Hw, Hh.
    unfold isInsideRoom in Hin. simpl in Hin. rewrite Hw, Hh in Hin.
    simpl in Hin.
    destruct c; simpl in *; revert Hin; cmp_cases; simpl;
      try discriminate; intros _; lra.
  - intros [Hbox Hcut]. unfold withinBox in Hbox. unfold isInsideRoom.
    rewrite rectangle_guard.
    destruct (isLShape shape ocw och oc) eqn:HL.
    + apply isLShape_true in HL.
      destruct HL as [-> (cw & ch & c & -> & -> & -> & Hw & Hh)].
      specialize (Hcut cw ch c eq_refl eq_refl eq_refl eq_refl Hw Hh).
      destruct c; simpl in *; cmp_cases; simpl; try reflexivity;
        try lra; exfalso; apply Hcut; lra.
    + simpl. cmp_cases; simpl; try reflexivity; lra.
Qed.

(** A 4 x 2 rectangle flush against the cutout of a 10 x 10 room with a
    4 x 4 cutout at the bottom right. *)
Lemma C4_inside_room_exact_witness :
  isInsideRoom 2 6 4 2 10 10 l_shape (Some 4) (Some 4) (Some bottom_right)
  = true.
Proof.
  apply (C4_inside_room_exact 2 6 4 2 10 10 l_shape (Some 4) (Some 4)
           (Some bottom_right)).
  split.
  - unfold withinBox. lra.
  - intros cw ch c _ Hw Hh Hc _ _.
    injection Hw as <-. injection Hh as <-. injection Hc as <-.
    simpl. lra.
Defined.

(** C4 as stated fails: in the same room a rectangle entering the cutout
    by 0.005, less than the tolerance, is inside by the worded test and
    rejected by [isInsideRoom]. *)
Lemma C4_tolerance_counterexample :
  insideRoomWithTolerance 2 6 (4005 # 1000) 2 10 10 4 4 bottom_right = true /\
  isInsideRoom 2 6 (4005 # 1000) 2 10 10 l_shape (Some 4) (Some 4)
    (Some bottom_right) = false.
Proof. split; reflexivity. Qed.

(** ** Dragging *)

Section AxisFallback.

Variable isValidPosition : Q -> Q -> bool.
Variables currentX currentY clampedX clampedY : Q.

(** The source agrees with the cascade unless both slides are valid
    where the full movement is not. *)
Lemma finalPosition_cascade :
  isValidPosition clampedX clampedY = true \/
  isValidPosition clampedX currentY = false \/
  isValidPosition currentX clampedY = false ->
  finalPosition isValidPosition currentX currentY clampedX clampedY
  = cascade isValidPosition currentX currentY clampedX clampedY.
Proof.
  unfold finalPosition, cascade.
  destruct (isValidPosition clampedX clampedY),
           (isValidPosition clampedX currentY),
           (isValidPosition currentX clampedY);
    intros [H | [H | H]]; try discriminate; reflexivity.
Qed.

(** When both slides are valid the two [if]s of the source both fire,
    and the position is the full movement again. *)
Lemma finalPosition_both_slides :
  isValidPosition clampedX clampedY = false ->
  isValidPosition clampedX currentY = true ->
  isValidPosition currentX clampedY = true ->
  finalPosition isValidPosition currentX currentY clampedX clampedY
  = (clampedX, clampedY).
Proof.
  unfold finalPosition. intros -> -> ->. reflexivity.
Qed.

(** The position chosen is always one of the four candidates. *)
Lemma finalPosition_candidates :
  let f := finalPosition isValidPosition currentX currentY clampedX clampedY in
  f = (clampedX, clampedY) \/ f = (clampedX, currentY) \/
  f = (currentX, clampedY) \/ f = (currentX, currentY).
Proof.
  unfold finalPosition.
  destruct (isValidPosition clampedX clampedY),
           (isValidPosition clampedX currentY),
           (isValidPosition currentX clampedY); cbv zeta; tauto.
Qed.

(** From a valid current position, the position chosen is valid unless
    both slides are valid where the full movement is not. *)
Lemma finalPosition_valid :
  isValidPosition currentX currentY = true ->
  isValidPosition clampedX clampedY = true \/
  isValidPosition clampedX currentY = false \/
  isValidPosition currentX clampedY = false ->
  let '(fx, fy) :=
    finalPosition isValidPosition currentX currentY clampedX clampedY in
  isValidPosition fx fy = true.
Proof.
  intros Hcur Hcase. unfold finalPosition.
  destruct (isValidPosition clampedX clampedY) eqn:E1; [exact E1|].
  destruct (isValidPosition clampedX currentY) eqn:E2,
           (isValidPosition currentX clampedY) eqn:E3;
    try assumption.
  destruct Hcase as [H | [H | H]]; discriminate.
Qed.

End AxisFallback.

(** C1 fails on the source.  In [DragScenario] the proposed position
    (2, 2) is invalid and the horizontal slide (2, 0) is valid, so the
    claim commits (2, 0); the vertical slide (0, 2) is valid too, both
    [if]s of the fallback fire, and the handler commits (2, 2). *)
Theorem C1_drag_commits_both_slides :
  let p := DragScenario.props in
  let a := DragScenario.unitA in
  isValidPositionUnit p a 2 2 = false /\
  isValidPositionUnit p a 2 0 = true /\
  isValidPositionUnit p a 0 2 = true /\
  cascade (isValidPositionUnit p a) 0 0 2 2 = (2, 0) /\
  finalPosition (isValidPositionUnit p a) 0 0 2 2 = (2, 2) /\
  exists lp,
    localPosition (fst (handleMouseMove p DragScenario.state
                          DragScenario.pointerX DragScenario.pointerY))
    = Some lp /\ posX lp == 2 /\ posY lp == 2.
Proof.
  cbv zeta. repeat split; try reflexivity.
  eexists. split; [vm_compute; reflexivity|]. split; reflexivity.
Qed.

(** C2 fails on the source, by the same fallback.  In [DragScenario] the
    layout is valid before the tick, and the position the handler commits
    for A is not valid: there A overlaps B. *)
Theorem C2_drag_commits_overlap :
  let p := DragScenario.props in
  let a := DragScenario.unitA in
  let b := DragScenario.unitB in
  isValidPositionUnit p a (x a) (y a) = true /\
  exists lp,
    localPosition (fst (handleMouseMove p DragScenario.state
                          DragScenario.pointerX DragScenario.pointerY))
    = Some lp /\
    isValidPositionUnit p a (posX lp) (posY lp) = false /\
    rectanglesOverlap (posX lp) (posY lp) (width a) (height a)
      (x b) (y b) (width b) (height b) = true.
Proof.
  cbv zeta. split; [reflexivity|].
  eexists. split; [vm_compute; reflexivity|]. split; reflexivity.
Qed.

(** ** Resizing *)

Lemma round_near (a : Q) : a - (1 # 2) < Num.round a /\ Num.round a <= a + (1 # 2).
Proof.
  unfold Num.round. split.
  - pose proof (Qlt_floor (a + (1 # 2))) as H.
    rewrite inject_Z_plus in H. change (inject_Z 1) with 1 in H. lra.
  - apply Qfloor_le.
Qed.

Lemma round_integer (a : Q) : exists n : Z, Num.round a = inject_Z n.
Proof. unfold Num.round. eauto. Qed.

Lemma round_lower (n : Z) (a : Q) : inject_Z n <= a -> inject_Z n <= Num.round a.
Proof.
  intros H. unfold Num.round. rewrite <- Zle_Qle.
  rewrite <- (Qfloor_Z n). apply Qfloor_resp_le. lra.
Qed.

Lemma existsb_forallb {A} (f : A -> bool) (l : list A) :
  existsb f l = negb (forallb (fun a => negb (f a)) l).
Proof.
  induction l as [|a l IH]; simpl; [reflexivity|].
  rewrite IH. destruct (f a); reflexivity.
Qed.

Lemma forallb_ext {A} (f g : A -> bool) (l : list A) :
  (forall a, f a = g a) -> forallb f l = forallb g l.
Proof.
  intros H. induction l as [|a l IH]; simpl; [reflexivity|].
  now rewrite H, IH.
Qed.

(** The resize branch keeps the capped size when it is valid and the
    kept size otherwise. *)
Lemma resizeElement_spec (p : Props) (s : State) (isUnit : bool)
    (el : Placed) (newWidth newHeight : Q) :
  let w := Qmin newWidth (roomWidth p - x el) in
  let h := Qmin newHeight (roomHeight p - y el) in
  resizeElement p s isUnit el newWidth newHeight =
  if validSize p isUnit el w h then (w, h)
  else (keptWidth s el, keptHeight s el).
Proof.
  cbv zeta. unfold resizeElement, validSize.
  set (w := Qmin newWidth _). set (h := Qmin newHeight _).
  destruct (isInsideRoom (x el) (y el) w h _ _ _ _ _ _); simpl.
  - rewrite !existsb_forallb.
    destruct isUnit.
    + rewrite (forallb_ext
                 (fun a => negb (negb (String.eqb (id a) (id el)) &&
                    rectanglesOverlap (x el) (y el) w h
                      (x a) (y a) (width a) (height a)))
                 (fun a => String.eqb (id a) (id el) ||
                    negb (rectanglesOverlap (x el) (y el) w h
                      (x a) (y a) (width a) (height a)))).
      2:{ intros a. destruct (String.eqb (id a) (id el)),
            (rectanglesOverlap (x el) (y el) w h
               (x a) (y a) (width a) (height a)); reflexivity. }
      destruct (forallb _ (units p)), (forallb _ (blocks p)); reflexivity.
    + rewrite (forallb_ext
                 (fun a => negb (negb (String.eqb (id a) (id el)) &&
                    rectanglesOverlap (x el) (y el) w h
                      (x a) (y a) (width a) (height a)))
                 (fun a => String.eqb (id a) (id el) ||
                    negb (rectanglesOverlap (x el) (y el) w h
                      (x a) (y a) (width a) (height a)))).
      2:{ intros a. destruct (String.eqb (id a) (id el)),
            (rectanglesOverlap (x el) (y el) w h
               (x a) (y a) (width a) (height a)); reflexivity. }
      destruct (forallb _ (units p)), (forallb _ (blocks p)); reflexivity.
  - destruct isUnit;
      match goal with
      | |- (if ?c then _ else _) = _ => destruct c; reflexivity
      end.
Qed.

(** The size kept on a failed check is the previous size, when that has
    no zero dimension. *)
Lemma kept_previous (s : State) (el : Placed) (pw ph : Q) :
  previousSize s el = (pw, ph) -> ~ pw == 0 -> ~ ph == 0 ->
  keptWidth s el = pw /\ keptHeight s el = ph.
Proof.
  unfold previousSize, keptWidth, keptHeight, Num.orElse.
  intros Hprev Hpw Hph. apply NumFacts.truthy_true in Hpw, Hph.
  destruct (localSize s) as [ls|]; injection Hprev as <- <-.
  - now rewrite Hpw, Hph.
  - split; reflexivity.
Qed.

(** A resize tick commits a valid size when the kept size is valid. *)
Lemma resizeElement_valid (p : Props) (s : State) (isUnit : bool)
    (el : Placed) (newWidth newHeight : Q) :
  validSize p isUnit el (keptWidth s el) (keptHeight s el) = true ->
  let '(w, h) := resizeElement p s isUnit el newWidth newHeight in
  validSize p isUnit el w h = true.
Proof.
  intros Hkept. rewrite resizeElement_spec. cbv zeta.
  destruct (validSize p isUnit el (Qmin newWidth _) (Qmin newHeight _)) eqn:E;
    assumption.
Qed.

(** The proposed size is floored at 0.5, is a multiple of 0.1, and is
    within 0.05 of the floored raw size. *)
Lemma rounded_floor (raw : Q) :
  let v := Num.round (Qmax (5 # 10) raw * 10) / 10 in
  (5 # 10) <= v /\
  (exists n : Z, v * 10 == inject_Z n) /\
  Qmax (5 # 10) raw - (5 # 100) < v /\ v <= Qmax (5 # 10) raw + (5 # 100).
Proof.
  cbv zeta.
  pose proof (round_near (Qmax (5 # 10) raw * 10)) as [Hlo Hhi].
  pose proof (round_lower 5 (Qmax (5 # 10) raw * 10)) as H5.
  pose proof (Q.le_max_l (5 # 10) raw) as Hmax.
  destruct (round_integer (Qmax (5 # 10) raw * 10)) as [n Hn].
  set (r := Num.round _) in *. set (m := Qmax _ _) in *. clearbody r m.
  change (inject_Z 5) with 5 in H5.
  assert (5 <= r) by (apply H5; lra).
  unfold Qdiv. change (/ 10) with (1 # 10).
  repeat split; try lra.
  exists n. rewrite <- Hn. ring.
Qed.

(** C7.  A resize tick of a unit or block [el] from its fixed top-left
    anchor takes the raw size, floors it at 0.5 per dimension, rounds it
    to a multiple of 0.1, caps it at the room's bounding box from the
    element's origin, and checks the result against the room shape and
    all other units and blocks; it commits the capped size when the check
    passes and keeps the previous size [(pw, ph)] otherwise. *)
Theorem C7_resize_tick (p : Props) (s : State) (d : Dragging) (i : string)
    (el : Placed) (isUnit : bool) (svgPx svgPy pw ph : Q) :
  dragging s = Some d ->
  dragType d = (if isUnit then resize_unit else resize_block) ->
  truthyId (dragId d) = Some i ->
  handle d = true ->
  findById (if isUnit then units p else blocks p) i = Some el ->
  previousSize s el = (pw, ph) ->
  ~ pw == 0 -> ~ ph == 0 ->
  let '(rawWidth, rawHeight) := rawSize p d svgPx svgPy in
  let flooredW := Qmax (5 # 10) rawWidth in
  let flooredH := Qmax (5 # 10) rawHeight in
  let roundedW := Num.round (flooredW * 10) / 10 in
  let roundedH := Num.round (flooredH * 10) / 10 in
    ((exists n : Z, roundedW * 10 == inject_Z n) /\
     flooredW - (5 # 100) < roundedW /\ roundedW <= flooredW + (5 # 100) /\
     (5 # 10) <= roundedW) /\
    ((exists n : Z, roundedH * 10 == inject_Z n) /\
     flooredH - (5 # 100) < roundedH /\ roundedH <= flooredH + (5 # 100) /\
     (5 # 10) <= roundedH) /\
    let w := Qmin roundedW (roomWidth p - x el) in
    let h := Qmin roundedH (roomHeight p - y el) in
    handleMouseMove p s svgPx svgPy =
    (setLocalSize s
       (if validSize p isUnit el w h
        then mkLocalSize i w h else mkLocalSize i pw ph), []).
Proof.
  intros Hd Ht Hi Hh Hel Hprev Hpw Hph.
  destruct (rawSize p d svgPx svgPy) as [rawWidth rawHeight] eqn:Hraw.
  cbv zeta.
  pose proof (rounded_floor rawWidth) as (W1 & W2 & W3 & W4).
  pose proof (rounded_floor rawHeight) as (H1 & H2 & H3 & H4).
  split; [tauto|]. split; [tauto|].
  destruct (kept_previous s el pw ph Hprev Hpw Hph) as [Hkw Hkh].
  unfold handleMouseMove. rewrite Hd, Ht, Hi, Hh.
  unfold proposedSize. rewrite Hraw.
  destruct isUnit; simpl; rewrite Hel, resizeElement_spec, Hkw, Hkh;
    cbv zeta;
    match goal with
    | |- context [validSize ?a ?b ?c ?u ?v] =>
        destruct (validSize a b c u v); reflexivity
    end.
Qed.

(** Scenario F as an instance: the proposed 3 x 3 overlaps the sibling
    and the tick returns the previous 2 x 2. *)
Lemma C7_resize_tick_witness :
  handleMouseMove ResizeScenario.props ResizeScenario.state
    ResizeScenario.pointerX ResizeScenario.pointerY
  = (setLocalSize ResizeScenario.state (mkLocalSize "b1" 2 2), []).
Proof.
  destruct (C7_resize_tick ResizeScenario.props ResizeScenario.state
              ResizeScenario.gesture "b1" ResizeScenario.block false
              ResizeScenario.pointerX ResizeScenario.pointerY 2 2
              eq_refl eq_refl eq_refl eq_refl eq_refl eq_refl)
    as (_ & _ & H).
  - intro E. discriminate E.
  - intro E. discriminate E.
  - rewrite H. reflexivity.
Defined.

(** ** The door *)

Lemma clampDoor_bounds (p : Props) (len pos : Q) :
  clampDoor p len pos = Qmax (marginLow p len) (Qmin (marginHigh p len) pos).
Proof. reflexivity. Qed.

Lemma Qmax_left (a b : Q) : b < a -> Qmax a b = a.
Proof.
  intros H. unfold Qmax, GenericMinMax.gmax.
  apply Qgt_alt in H. now rewrite H.
Qed.

(** A door at least as wide as the wall takes at least the whole wall:
    the clamp range is empty, with its lower bound above its upper. *)
Lemma degenerate_margins (p : Props) (len : Q) :
  0 < scale p -> 0 < len -> effectiveWallLength p len <= doorWidthOrOne p ->
  (52 # 100) <= marginLow p len /\ marginHigh p len <= (48 # 100).
Proof.
  intros Hs Hl Hd. unfold marginLow, marginHigh.
  assert (He : 0 < effectiveWallLength p len).
  { unfold effectiveWallLength. apply Qlt_shift_div_l; lra. }
  assert (H1 : 1 <= doorWidthOrOne p / effectiveWallLength p len).
  { apply Qle_shift_div_l; lra. }
  set (doorW := doorWidthOrOne p / _) in *. clearbody doorW.
  unfold Qdiv. change (/ 2) with (1 # 2). split; lra.
Qed.

(** A door tick with a door at least as wide as the wall nearest to the
    pointer commits the lower bound of the empty clamp range, whatever the
    pointer's position along the wall. *)
Lemma wide_door_tick (p : Props) (s : State) (d : Dragging)
    (svgPx svgPy : Q) (newWall : DoorWall) (dist : Dist) (len off pos : Q) :
  dragging s = Some d -> dragType d = drag_door ->
  closest (allDistances p (svgPx - offsetX p) (svgPy - offsetY p))
  = Some (newWall, dist) ->
  wallTable p newWall (svgPx - offsetX p) (svgPy - offsetY p)
  = (len, off, pos) ->
  0 < scale p -> 0 < len ->
  effectiveWallLength p len <= doorWidthOrOne p ->
  handleMouseMove p s svgPx svgPy =
  (setLocalDoor s newWall (marginLow p len),
   if onDoorMove p then [CallDoorMove newWall (marginLow p len)] else []) /\
  (52 # 100) <= marginLow p len.
Proof.
  intros Hd Ht Hc Hw Hs Hl Hwide.
  destruct (degenerate_margins p len Hs Hl Hwide) as [Hlo Hhi].
  split; [|exact Hlo].
  unfold handleMouseMove. rewrite Hd, Ht.
  destruct (truthyId (dragId d)); cbv beta iota zeta;
    rewrite Hc, Hw, clampDoor_bounds, Qmax_left; try reflexivity;
    pose proof (Q.le_min_l (marginHigh p len) pos); lra.
Qed.

(** C3 fails on the source.  A door that does not fit its wall is placed,
    not rejected, and the clamp that is to keep the door fully within the
    wall does not: a 12 m door dragged on the 10 m north wall is committed
    at position 0.62 and runs from 0.2 m to 12.2 m, past the end of the
    wall at 10 m; a 1 m door dragged on an internal wall 0.5 m long is
    committed at position 1.02, outside the range from 0 to 1 of a door
    position. *)
Theorem C3_wide_door_leaves_wall :
  (let p := WideDoorScenario.props in
   let r := handleMouseMove p WideDoorScenario.state
              WideDoorScenario.pointerX WideDoorScenario.pointerY in
   doorWidthOrOne p == 12 /\
   exists pos,
     localDoorWall (fst r) = Some north /\
     localDoorPosition (fst r) = Some pos /\
     snd r = [CallDoorMove north pos] /\
     pos == (62 # 100) /\
     let g := renderDoor p north pos in
     effectiveWallLength p (wallLength g) == 10 /\
     effectiveWallLength p (wallOffset g) == 0 /\
     effectiveWallLength p (openingStart north g) == (2 # 10) /\
     effectiveWallLength p (openingStart north g + openingExtent north g)
     == (122 # 10)) /\
  (let p := NarrowWallScenario.props in
   let r := handleMouseMove p NarrowWallScenario.state
              NarrowWallScenario.pointerX NarrowWallScenario.pointerY in
   doorWidthOrOne p == 1 /\
   exists pos,
     localDoorWall (fst r) = Some cutout_horizontal /\
     localDoorPosition (fst r) = Some pos /\
     snd r = [CallDoorMove cutout_horizontal pos] /\
     pos == (102 # 100) /\
     effectiveWallLength p
       (wallLength (renderDoor p cutout_horizontal pos)) == (1 # 2)).
Proof.
  split; cbv zeta; (split; [reflexivity|]); eexists;
    (split; [vm_compute; reflexivity|]);
    (split; [vm_compute; reflexivity|]);
    (split; [vm_compute; reflexivity|]);
    repeat split; vm_compute; reflexivity.
Qed.

(** ** The wall table *)

(** C6.  In an L-shape room with the cutout at corner [c], both wall
    tables (of the door drag and of the [Door] component) give every
    perimeter wall adjacent to the cutout the full length less the
    cutout's extent, and every other perimeter wall the full length; the
    offset is the cutout's extent exactly when the wall is adjacent with
    the cutout at its start, and 0 otherwise.  In the 10 x 10 room with a
    4 x 4 cutout at the bottom right, the south wall has effective length
    6 and offset 0, and the vertical cutout wall lies at x = 6 and spans
    y from 6 to 10. *)
Theorem C6_wall_table :
  (forall (p : Props) (c : CutoutCorner) (w : DoorWall) (lx ly pos : Q),
     isLShape (shape p) (shapeCutoutWidth p) (shapeCutoutHeight p)
       (shapeCutoutCorner p) = true ->
     shapeCutoutCorner p = Some c ->
     perimeter w = true ->
     let '(len, off, _) := wallTable p w lx ly in
     let g := renderDoor p w pos in
     len = (if adjacent w c then fullLength p w - cutoutExtent p w
            else fullLength p w) /\
     off = (if adjacent w c && atStart w c then cutoutExtent p w else 0) /\
     wallLength g = len /\ wallOffset g = off) /\
  (forall lx ly pos : Q,
     let p := LShapeScenario.props in
     let '(southLen, southOff, _) := wallTable p south lx ly in
     let '(cvLen, cvOff, _) := wallTable p cutout_vertical lx ly in
     effectiveWallLength p southLen == 6 /\
     southOff / scale p == 0 /\
     effectiveWallLength p (wallLength (renderDoor p south pos)) == 6 /\
     hingeX (renderDoor p cutout_vertical pos) / scale p == 6 /\
     cvOff / scale p == 6 /\
     (cvOff + cvLen) / scale p == 10).
Proof.
  split.
  - intros p c w lx ly pos HL Hc Hw.
    unfold wallTable, renderDoor, Door, fullLength, cutoutExtent.
    rewrite HL, Hc.
    destruct w; try discriminate; destruct c; simpl; tauto.
  - intros lx ly pos. cbv zeta. simpl. repeat split; reflexivity.
Qed.

(** The west wall of a 10 x 8 room with a 3 x 2 cutout at the top left:
    shortened by the cutout's height and offset by it. *)
Lemma C6_wall_table_witness :
  let p := mkProps 10 8 [] [] l_shape (Some 3) (Some 2) (Some top_left)
             (Some 1) true true true in
  let '(len, off, _) := wallTable p west 0 0 in
  len = roomHeight p * scale p - 2 * scale p /\ off = 2 * scale p.
Proof.
  cbv zeta.
  pose proof (proj1 C6_wall_table
                (mkProps 10 8 [] [] l_shape (Some 3) (Some 2) (Some top_left)
                   (Some 1) true true true)
                top_left west 0 0 (1 # 2) eq_refl eq_refl eq_refl) as H.
  destruct H as (Hlen & Hoff & _). split; [exact Hlen | exact Hoff].
Defined.

(** ** Door position round trip *)

Lemma clampDoor_within (p : Props) (len pos : Q) :
  marginLow p len <= pos -> pos <= marginHigh p len ->
  clampDoor p len pos == pos.
Proof.
  intros Hlo Hhi. rewrite clampDoor_bounds.
  rewrite (Q.min_r _ _ Hhi). now apply Q.max_r.
Qed.

(** The centre of the rendered door is the wall's offset plus the
    position times the wall's length, with the length and offset of the
    drag's wall table. *)
Lemma doorCentre_table (p : Props) (w : DoorWall) (lx ly position : Q) :
  wallExists p w = true ->
  let '(len, off, _) := wallTable p w lx ly in
  doorCentre w (renderDoor p w position) == off + position * len.
Proof.
  unfold wallExists, wallTable, renderDoor, Door, doorCentre.
  destruct (isLShape _ _ _ _) eqn:HL.
  - destruct w; intros _; simpl;
      destruct (shapeCutoutCorner p) as [[| | |]|]; simpl; field.
  - destruct w; simpl; intros Hw; try discriminate; field.
Qed.

(** C9.  For every wall of the room and every pointer position whose
    normalized position [pos] on that wall (the projection less the
    wall's offset, divided by the wall's effective length) lies within the
    clamp margins, [pos] is a fraction in (0,1), the clamp leaves it
    unchanged, and the door rendered from the clamped position has its
    centre at the pointer's projection on the wall.  In exact arithmetic
    the two points are equal. *)
Theorem C9_door_round_trip (p : Props) (w : DoorWall)
    (lx ly len off pos : Q) :
  wallExists p w = true ->
  wallTable p w lx ly = (len, off, pos) ->
  0 < scale p -> 0 < len -> 0 < doorWidthOrOne p ->
  marginLow p len <= pos -> pos <= marginHigh p len ->
  pos == (alongWall w lx ly - off) / len /\
  0 < pos /\ pos < 1 /\
  clampDoor p len pos == pos /\
  doorCentre w (renderDoor p w (clampDoor p len pos)) == alongWall w lx ly.
Proof.
  intros Hex Htab Hs Hl Hd Hlo Hhi.
  assert (Hpos : pos == (alongWall w lx ly - off) / len).
  { revert Htab. unfold wallTable, alongWall.
    destruct w; simpl;
      repeat match goal with
      | |- context [let '(_, _) := ?c in _] => destruct c
      | |- context [if ?c then _ else _] => destruct c
      end; intros Htab; injection Htab as <- <- <-; reflexivity. }
  assert (Hfrac : 0 < doorWidthOrOne p / effectiveWallLength p len).
  { unfold effectiveWallLength.
    apply Qlt_shift_div_l; [apply Qlt_shift_div_l; lra | lra]. }
  pose proof (clampDoor_within p len pos Hlo Hhi) as Hclamp.
  unfold marginLow, marginHigh in Hlo, Hhi.
  set (doorW := doorWidthOrOne p / _) in *. clearbody doorW.
  unfold Qdiv in Hlo, Hhi. change (/ 2) with (1 # 2) in Hlo, Hhi.
  split; [exact Hpos|]. split; [lra|]. split; [lra|].
  split; [exact Hclamp|].
  pose proof (doorCentre_table p w lx ly (clampDoor p len pos) Hex) as Hc.
  rewrite Htab in Hc. rewrite Hc, Hclamp, Hpos. field. lra.
Qed.

(** The pointer at 3 m along the south wall of the 10 x 10 L-shape room,
    whose south wall is 6 m long: position 0.5, door centred at 3 m. *)
Lemma C9_door_round_trip_witness :
  let p := LShapeScenario.props in
  let len := roomWidth p * scale p - numOrZero (shapeCutoutWidth p) * scale p in
  let pos := (3 * scale p - 0) / len in
  doorCentre south (renderDoor p south (clampDoor p len pos))
  == alongWall south (3 * scale p) 0.
Proof.
  cbv zeta.
  refine (proj2 (proj2 (proj2 (proj2
            (C9_door_round_trip LShapeScenario.props south
               (3 * scale LShapeScenario.props) 0 _ 0 _
               eq_refl eq_refl _ _ _ _ _)))));
    vm_compute; (reflexivity || discriminate).
Defined.

(** ** Rooms with a missing cutout *)

(** [isInsideRoom] of an L-shape room with a cutout value missing is the
    bounding-box test of a rectangle room. *)
Lemma isInsideRoom_missing_cutout (rx ry rw rh W H : Q) shape ocw och oc
    ocw' och' oc' :
  isLShape shape ocw och oc = false ->
  isInsideRoom rx ry rw rh W H shape ocw och oc
  = isInsideRoom rx ry rw rh W H rectangle ocw' och' oc'.
Proof.
  intros HL. unfold isInsideRoom. rewrite rectangle_guard, HL. simpl.
  reflexivity.
Qed.

(** So is the geometry of the [Door] component. *)
Lemma Door_missing_cutout (w : DoorWall) (position dw W H sc : Q) shape
    ocw och oc ocw' och' oc' :
  isLShape shape ocw och oc = false ->
  Door w position dw W H sc shape ocw och oc
  = Door w position dw W H sc rectangle ocw' och' oc'.
Proof.
  intros HL. unfold Door. rewrite HL. destruct w; reflexivity.
Qed.

(** [getRoomPath] draws the rectangle when the cutout's width or height
    is missing. *)
Lemma getRoomPath_missing_size (W H sc : Q) ocw och oc ocw' och' oc' :
  truthyNum ocw && truthyNum och = false ->
  getRoomPath W H sc l_shape ocw och oc
  = getRoomPath W H sc rectangle ocw' och' oc'.
Proof.
  intros Hm. unfold getRoomPath. simpl.
  destruct (truthyNum ocw), (truthyNum och); try discriminate; reflexivity.
Qed.

(** C10 fails on the source for the room outline.  In a 10 x 10 room of
    shape ['l_shape'] with a 4 x 4 cutout and no cutout corner,
    [isInsideRoom] and [Door] take the room for a rectangle, and
    [getRoomPath] draws an L-shape with the notch at the top right, not
    the rectangle; a 2 x 2 rectangle at (7, 1), within the notch drawn, is
    inside the room. *)
Theorem C10_outline_without_corner :
  isLShape l_shape (Some 4) (Some 4) None = false /\
  getRoomPath 10 10 1 rectangle (Some 4) (Some 4) None
  = [MoveTo 0 0; LineTo 10 0; LineTo 10 10; LineTo 0 10; ClosePath] /\
  getRoomPath 10 10 1 l_shape (Some 4) (Some 4) None
  = [MoveTo 0 0; LineTo 6 0; LineTo 6 4; LineTo 10 4; LineTo 10 10;
     LineTo 0 10; ClosePath] /\
  getRoomPath 10 10 1 l_shape (Some 4) (Some 4) None
  = getRoomPath 10 10 1 l_shape (Some 4) (Some 4) (Some top_right) /\
  isInsideRoom 7 1 2 2 10 10 l_shape (Some 4) (Some 4) None = true /\
  isInsideRoom 7 1 2 2 10 10 l_shape (Some 4) (Some 4) (Some top_right)
  = false.
Proof. repeat split; reflexivity. Qed.

(** ** The L-shape editor *)

(** For positive leg dimensions the cutout of [legsToBackend] is within
    the bounding box, and its width is 0 exactly when the vertical leg is
    at least as wide as the horizontal one; a room with that cutout is
    not taken for an L-shape by the geometry code. *)
Lemma legsToBackend_range (config : LShapeConfig) :
  0 < verticalLegWidth config -> 0 < verticalLegHeight config ->
  0 < horizontalLegWidth config -> 0 < horizontalLegHeight config ->
  let b := legsToBackend config in
  let cw := backendCutoutWidth b in
  let ch := backendCutoutHeight b in
  0 <= cw /\ cw < backendWidth b /\ 0 < ch /\ ch < backendHeight b /\
  (cw == 0 <-> horizontalLegWidth config <= verticalLegWidth config) /\
  (cw == 0 ->
   isLShape l_shape (Some cw) (Some ch) (Some (orientation config)) = false).
Proof.
  intros Hvw Hvh Hhw Hhh. cbv zeta.
  assert (Hcw : backendCutoutWidth (legsToBackend config)
                = Qmax 0 (Qmax (verticalLegWidth config)
                            (horizontalLegWidth config)
                          - verticalLegWidth config)).
  { unfold legsToBackend. destruct (orientation config); reflexivity. }
  rewrite Hcw. unfold legsToBackend. simpl.
  set (vw := verticalLegWidth config) in *.
  set (vh := verticalLegHeight config) in *.
  set (hw := horizontalLegWidth config) in *.
  set (hh := horizontalLegHeight config) in *.
  repeat split.
  - minmax_cases; lra.
  - minmax_cases; lra.
  - minmax_cases; lra.
  - minmax_cases; lra.
  - intros H0. revert H0. minmax_cases; lra.
  - intros H0. revert H0. minmax_cases; lra.
  - intros H0. unfold isLShape. simpl.
    apply NumFacts.truthy_false in H0. rewrite H0. reflexivity.
Qed.

(** C5 fails on the source.  For a vertical leg 5 x 3 on a horizontal leg
    3 x 3, dimensions the editor's inputs accept, [legsToBackend] rejects
    nothing and does not make the cutout positive: it returns the
    bounding box 5 x 6 with a cutout 0 wide and 3 high, which breaks
    [0 < cw], and the room of shape ['l_shape'] with that cutout is not
    taken for an L-shape by the geometry code. *)
Theorem C5_clamp_returns_zero_cutout :
  let config := mkLShapeConfig bottom_right 5 3 3 3 in
  let b := legsToBackend config in
  1 <= verticalLegWidth config /\ 1 <= verticalLegHeight config /\
  1 <= horizontalLegWidth config /\ 1 <= horizontalLegHeight config /\
  backendWidth b == 5 /\ backendHeight b == 6 /\
  backendCutoutWidth b == 0 /\ backendCutoutHeight b == 3 /\
  ~ 0 < backendCutoutWidth b /\
  ~ shapeInvariant (backendWidth b) (backendHeight b)
      (backendCutoutWidth b) (backendCutoutHeight b) /\
  isLShape l_shape (Some (backendCutoutWidth b)) (Some (backendCutoutHeight b))
    (Some (orientation config)) = false.
Proof.
  cbv zeta. unfold shapeInvariant.
  assert (Hcw : ~ 0 < backendCutoutWidth
                      (legsToBackend (mkLShapeConfig bottom_right 5 3 3 3))).
  { intros H. vm_compute in H. discriminate. }
  split; [vm_compute; discriminate|].
  split; [vm_compute; discriminate|].
  split; [vm_compute; discriminate|].
  split; [vm_compute; discriminate|].
  split; [reflexivity|]. split; [reflexivity|].
  split; [reflexivity|]. split; [reflexivity|].
  split; [exact Hcw|].
  split; [intros (H & _); exact (Hcw H) | reflexivity].
Qed.

(** * Further properties of the layout code *)

(** ** Overlap and containment *)

(** X1.  The overlap test is symmetric: it gives the same answer whichever
    of the two rectangles comes first. *)
Theorem X1_overlap_symmetric (x1 y1 w1 h1 x2 y2 w2 h2 : Q) :
  rectanglesOverlap x1 y1 w1 h1 x2 y2 w2 h2
  = rectanglesOverlap x2 y2 w2 h2 x1 y1 w1 h1.
Proof.
  apply eq_true_iff_eq. rewrite !rectanglesOverlap_spec.
  unfold tolerance. split; intros (A & B & C & D); repeat split; lra.
Qed.

(** A rectangle that overlaps another still overlaps it after growing to
    a rectangle that contains it. *)
Lemma rectanglesOverlap_grow (x1 y1 w1 h1 x1' y1' w1' h1' x2 y2 w2 h2 : Q) :
  x1 <= x1' -> y1 <= y1' -> x1' + w1' <= x1 + w1 -> y1' + h1' <= y1 + h1 ->
  rectanglesOverlap x1' y1' w1' h1' x2 y2 w2 h2 = true ->
  rectanglesOverlap x1 y1 w1 h1 x2 y2 w2 h2 = true.
Proof.
  intros Hx Hy Hw Hh. rewrite !rectanglesOverlap_spec.
  intros (A & B & C & D). repeat split; lra.
Qed.

(** The bounding-box test of [isInsideRoom]. *)
Lemma outside_box_false (rx ry rw rh W H : Q) :
  Num.ltb rx 0 || Num.ltb ry 0 || Num.gtb (rx + rw) W || Num.gtb (ry + rh) H
  = false <-> withinBox rx ry rw rh W H.
Proof.
  unfold withinBox. rewrite !orb_false_iff, !NumFacts.ltb_ge, !NumFacts.gtb_le.
  tauto.
Qed.

(** [isInsideRoom] as a proposition, over the cutout rectangle
    [(x1, y1, x2, y2)] of its [switch]. *)
Lemma isInsideRoom_prop (rx ry rw rh W H : Q) (shape : RoomShape)
    (ocw och : option Q) (oc : option CutoutCorner) :
  isInsideRoom rx ry rw rh W H shape ocw och oc = true <->
  withinBox rx ry rw rh W H /\
  (isLShape shape ocw och oc = true ->
   let '(x1, y1, x2, y2) :=
     cutoutRect W H (numOrZero ocw) (numOrZero och) oc in
   ~ (rx < x2 /\ x1 < rx + rw /\ ry < y2 /\ y1 < ry + rh)).
Proof.
  unfold isInsideRoom. rewrite rectangle_guard.
  destruct (Num.ltb rx 0 || Num.ltb ry 0 || Num.gtb (rx + rw) W
            || Num.gtb (ry + rh) H) eqn:Hbox.
  - split; [discriminate|]. intros [Hin _].
    apply outside_box_false in Hin. congruence.
  - apply outside_box_false in Hbox.
    destruct (isLShape shape ocw och oc); simpl.
    + destruct (cutoutRect W H (numOrZero ocw) (numOrZero och) oc)
        as [[[x1 y1] x2] y2].
      rewrite negb_true_iff, !andb_false_iff, !NumFacts.ltb_ge,
        !NumFacts.gtb_le.
      split.
      * intros Hc. split; [exact Hbox|]. intros _ (A & B & C & D).
        destruct Hc as [[[Hc | Hc] | Hc] | Hc]; lra.
      * intros [_ Hc]. specialize (Hc eq_refl).
        destruct (Qlt_le_dec rx x2); [|tauto].
        destruct (Qlt_le_dec x1 (rx + rw)); [|tauto].
        destruct (Qlt_le_dec ry y2); [|tauto].
        destruct (Qlt_le_dec y1 (ry + rh)); [|tauto].
        exfalso. apply Hc. tauto.
    + split; [intros _; split; [exact Hbox | discriminate] | reflexivity].
Qed.

(** Containment keeps a rectangle inside the room. *)
Lemma isInsideRoom_subrectangle (rx ry rw rh rx' ry' rw' rh' W H : Q)
    (shape : RoomShape) (ocw och : option Q) (oc : option CutoutCorner) :
  rx <= rx' -> ry <= ry' -> rx' + rw' <= rx + rw -> ry' + rh' <= ry + rh ->
  isInsideRoom rx ry rw rh W H shape ocw och oc = true ->
  isInsideRoom rx' ry' rw' rh' W H shape ocw och oc = true.
Proof.
  intros Hx Hy Hw Hh. rewrite !isInsideRoom_prop. unfold withinBox.
  intros [Hbox Hcut]. split; [lra|].
  intros HL. specialize (Hcut HL).
  destruct (cutoutRect W H (numOrZero ocw) (numOrZero och) oc)
    as [[[x1 y1] x2] y2].
  intros (A & B & C & D). apply Hcut. repeat split; lra.
Qed.

(** X2.  Every rectangle contained in a rectangle that is inside the room
    is inside the room, for every room shape. *)
Theorem X2_inside_room_subrectangle (rx ry rw rh rx' ry' rw' rh' W H : Q)
    (shape : RoomShape) (ocw och : option Q) (oc : option CutoutCorner) :
  rx <= rx' -> ry <= ry' -> rx' + rw' <= rx + rw -> ry' + rh' <= ry + rh ->
  isInsideRoom rx ry rw rh W H shape ocw och oc = true ->
  isInsideRoom rx' ry' rw' rh' W H shape ocw och oc = true.
Proof. apply isInsideRoom_subrectangle. Qed.

(** A 1 x 1 rectangle within a 4 x 2 rectangle that lies flush against
    the cutout of the 10 x 10 L-shape room. *)
Lemma X2_inside_room_subrectangle_witness :
  isInsideRoom 3 7 1 1 10 10 l_shape (Some 4) (Some 4) (Some bottom_right)
  = true.
Proof.
  refine (X2_inside_room_subrectangle 2 6 4 2 3 7 1 1 10 10 l_shape
            (Some 4) (Some 4) (Some bottom_right) _ _ _ _ eq_refl); lra.
Defined.

(** Shrinking keeps a size valid. *)
Lemma validSize_shrinks (p : Props) (isUnit : bool) (el : Placed)
    (w h w' h' : Q) :
  w' <= w -> h' <= h ->
  validSize p isUnit el w h = true ->
  validSize p isUnit el w' h' = true.
Proof.
  intros Hw Hh. unfold validSize. rewrite !andb_true_iff.
  intros [[Hin Hu] Hb].
  assert (Hfree : forall o,
            negb (rectanglesOverlap (x el) (y el) w h
                    (x o) (y o) (width o) (height o)) = true ->
            negb (rectanglesOverlap (x el) (y el) w' h'
                    (x o) (y o) (width o) (height o)) = true).
  { intros o Ho. rewrite negb_true_iff in *.
    destruct (rectanglesOverlap (x el) (y el) w' h' _ _ _ _) eqn:E;
      [|reflexivity].
    rewrite <- Ho. symmetry.
    apply (rectanglesOverlap_grow _ _ _ _ (x el) (y el) w' h'); try lra.
    exact E. }
  assert (Hall : forall l,
            forallb (if isUnit
                     then fun o => String.eqb (id o) (id el) ||
                            negb (rectanglesOverlap (x el) (y el) w h
                                    (x o) (y o) (width o) (height o))
                     else fun o =>
                            negb (rectanglesOverlap (x el) (y el) w h
                                    (x o) (y o) (width o) (height o))) l
            = true ->
            forallb (if isUnit
                     then fun o => String.eqb (id o) (id el) ||
                            negb (rectanglesOverlap (x el) (y el) w' h'
                                    (x o) (y o) (width o) (height o))
                     else fun o =>
                            negb (rectanglesOverlap (x el) (y el) w' h'
                                    (x o) (y o) (width o) (height o))) l
            = true).
  { intros l. rewrite !forallb_forall. intros Hl o Ho.
    specialize (Hl o Ho). destruct isUnit.
    - apply orb_true_iff in Hl. apply orb_true_iff.
      destruct Hl as [Hl | Hl]; [left; exact Hl | right; auto].
    - auto. }
  assert (Hall' : forall l,
            forallb (if isUnit
                     then fun o =>
                            negb (rectanglesOverlap (x el) (y el) w h
                                    (x o) (y o) (width o) (height o))
                     else fun o => String.eqb (id o) (id el) ||
                            negb (rectanglesOverlap (x el) (y el) w h
                                    (x o) (y o) (width o) (height o))) l
            = true ->
            forallb (if isUnit
                     then fun o =>
                            negb (rectanglesOverlap (x el) (y el) w' h'
                                    (x o) (y o) (width o) (height o))
                     else fun o => String.eqb (id o) (id el) ||
                            negb (rectanglesOverlap (x el) (y el) w' h'
                                    (x o) (y o) (width o) (height o))) l
            = true).
  { intros l. rewrite !forallb_forall. intros Hl o Ho.
    specialize (Hl o Ho). destruct isUnit.
    - auto.
    - apply orb_true_iff in Hl. apply orb_true_iff.
      destruct Hl as [Hl | Hl]; [left; exact Hl | right; auto]. }
  repeat split.
  - apply (isInsideRoom_subrectangle (x el) (y el) w h); try lra; exact Hin.
  - apply Hall, Hu.
  - apply Hall', Hb.
Qed.

(** X3.  Validity of a size is kept by shrinking: an element whose size
    [(w, h)] is valid at its place stays valid with every size that is no
    larger in either dimension. *)
Theorem X3_valid_size_shrinks (p : Props) (isUnit : bool) (el : Placed)
    (w h w' h' : Q) :
  w' <= w -> h' <= h ->
  validSize p isUnit el w h = true ->
  validSize p isUnit el w' h' = true.
Proof. apply validSize_shrinks. Qed.

(** The shrink of the block of scenario F from 2 x 2 to 1 x 1. *)
Lemma X3_valid_size_shrinks_witness :
  validSize ResizeScenario.props false ResizeScenario.block 1 1 = true.
Proof.
  refine (X3_valid_size_shrinks ResizeScenario.props false
            ResizeScenario.block 2 2 1 1 _ _ eq_refl); lra.
Defined.

(** ** Ticks repeated at the same pointer *)

(** The choice of the drag is stable: from the position it chose, the
    same proposal chooses it again. *)
Lemma finalPosition_idem (v : Q -> Q -> bool) (cx cy px py : Q) :
  finalPosition v (fst (finalPosition v cx cy px py))
    (snd (finalPosition v cx cy px py)) px py
  = finalPosition v cx cy px py.
Proof.
  unfold finalPosition. cbv zeta.
  destruct (v px py) eqn:E1; cbn [fst snd]; [reflexivity|].
  destruct (v px cy) eqn:E2, (v cx py) eqn:E3; cbn [fst snd];
    rewrite ?E1, ?E2, ?E3; reflexivity.
Qed.

Lemma neqb_refl (a : Q) : Num.neqb a a = false.
Proof. unfold Num.neqb. now rewrite Qeq_bool_refl. Qed.

Lemma orElse_idem (a d : Q) : Num.orElse (Num.orElse a d) d = Num.orElse a d.
Proof.
  unfold Num.orElse. destruct (Num.truthy a) eqn:E; [now rewrite E|].
  destruct (Num.truthy d); reflexivity.
Qed.

(** One drag tick of an element followed by a second one at the same
    pointer. *)
Lemma drag_tick_twice (p : Props) (s : State) (v : Q -> Q -> bool)
    (el : Placed) (i : string) (svgPx svgPy : Q) :
  let '(currentX, currentY, (finalX, finalY)) :=
    dragFinal p s v el svgPx svgPy in
  let s' := if Num.neqb finalX currentX || Num.neqb finalY currentY
            then setLocalPosition s (mkLocalPosition i finalX finalY)
            else s in
  let '(currentX', currentY', (finalX', finalY')) :=
    dragFinal p s' v el svgPx svgPy in
  (if Num.neqb finalX' currentX' || Num.neqb finalY' currentY'
   then setLocalPosition s' (mkLocalPosition i finalX' finalY')
   else s') = s'.
Proof.
  unfold dragFinal.
  set (cx := match localPosition s with Some lp => posX lp | None => x el end).
  set (cy := match localPosition s with Some lp => posY lp | None => y el end).
  set (px := Qmax 0 (Qmin (roomWidth p - width el)
                       ((svgPx - offsetX p - fst (dragOffset s)) / scale p))).
  set (py := Qmax 0 (Qmin (roomHeight p - height el)
                       ((svgPy - offsetY p - snd (dragOffset s)) / scale p))).
  pose proof (finalPosition_idem v cx cy px py) as Hidem.
  destruct (finalPosition v cx cy px py) as [fx fy] eqn:F. simpl in Hidem.
  cbv zeta.
  destruct (Num.neqb fx cx || Num.neqb fy cy) eqn:C.
  - simpl. fold px py. rewrite Hidem, !neqb_refl. reflexivity.
  - fold cx cy px py. rewrite F, C. reflexivity.
Qed.

(** One resize tick of an element followed by a second one with the same
    proposed size. *)
Lemma resize_tick_twice (p : Props) (s : State) (isUnit : bool)
    (el : Placed) (i : string) (nw nh : Q) :
  resizeElement p
    (setLocalSize s
       (mkLocalSize i (fst (resizeElement p s isUnit el nw nh))
          (snd (resizeElement p s isUnit el nw nh)))) isUnit el nw nh
  = resizeElement p s isUnit el nw nh.
Proof.
  rewrite !resizeElement_spec. cbv zeta.
  destruct (validSize p isUnit el _ _); [reflexivity|].
  cbn [fst snd]. unfold keptWidth, keptHeight. simpl localSize.
  cbn [sizeWidth sizeHeight].
  destruct (localSize s) as [ls|]; rewrite ?orElse_idem; [reflexivity|].
  unfold Num.orElse.
  destruct (Num.truthy (width el)), (Num.truthy (height el)); reflexivity.
Qed.

(** X4.  A tick repeated at the same pointer changes nothing further: the
    state after two [handleMouseMove] at one pointer position is the
    state after the first, for every kind of gesture. *)
Theorem X4_move_twice (p : Props) (s : State) (svgPx svgPy : Q) :
  fst (handleMouseMove p (fst (handleMouseMove p s svgPx svgPy)) svgPx svgPy)
  = fst (handleMouseMove p s svgPx svgPy).
Proof.
  unfold handleMouseMove at 2 3.
  destruct (dragging s) as [d|] eqn:Hd.
  2:{ simpl. unfold handleMouseMove. rewrite Hd. reflexivity. }
  destruct (dragType d) eqn:Ht, (truthyId (dragId d)) as [i|] eqn:Hi;
    try (simpl; unfold handleMouseMove; rewrite Hd, Ht, Hi; reflexivity).
  - (* unit *)
    destruct (findById (units p) i) as [unit|] eqn:Hf.
    2:{ simpl. unfold handleMouseMove. rewrite Hd, Ht, Hi, Hf. reflexivity. }
    pose proof (drag_tick_twice p s (isValidPositionUnit p unit) unit i
                  svgPx svgPy) as H2.
    destruct (dragFinal p s (isValidPositionUnit p unit) unit svgPx svgPy)
      as [[cx cy] [fx fy]] eqn:F.
    cbv zeta in H2.
    destruct (Num.neqb fx cx || Num.neqb fy cy) eqn:C; simpl fst.
    + unfold handleMouseMove. simpl dragging. rewrite Hd, Ht, Hi, Hf.
      destruct (dragFinal p (setLocalPosition s (mkLocalPosition i fx fy))
                  (isValidPositionUnit p unit) unit svgPx svgPy)
        as [[cx' cy'] [fx' fy']].
      destruct (Num.neqb fx' cx' || Num.neqb fy' cy'); simpl; congruence.
    + unfold handleMouseMove. rewrite Hd, Ht, Hi, Hf, F, C. reflexivity.
  - (* block *)
    destruct (findById (blocks p) i) as [block|] eqn:Hf.
    2:{ simpl. unfold handleMouseMove. rewrite Hd, Ht, Hi, Hf. reflexivity. }
    pose proof (drag_tick_twice p s (isValidPositionBlock p block) block i
                  svgPx svgPy) as H2.
    destruct (dragFinal p s (isValidPositionBlock p block) block svgPx svgPy)
      as [[cx cy] [fx fy]] eqn:F.
    cbv zeta in H2.
    destruct (Num.neqb fx cx || Num.neqb fy cy) eqn:C; simpl fst.
    + unfold handleMouseMove. simpl dragging. rewrite Hd, Ht, Hi, Hf.
      destruct (dragFinal p (setLocalPosition s (mkLocalPosition i fx fy))
                  (isValidPositionBlock p block) block svgPx svgPy)
        as [[cx' cy'] [fx' fy']].
      destruct (Num.neqb fx' cx' || Num.neqb fy' cy'); simpl; congruence.
    + unfold handleMouseMove. rewrite Hd, Ht, Hi, Hf, F, C. reflexivity.
  - (* door, with an id *)
    destruct (closest (allDistances p (svgPx - offsetX p) (svgPy - offsetY p)))
      as [[newWall dist]|] eqn:Hc; cbv zeta.
    + destruct (wallTable p newWall (svgPx - offsetX p) (svgPy - offsetY p))
        as [[len off] pos] eqn:Hw. simpl fst.
      unfold handleMouseMove. simpl dragging. rewrite Hd, Ht.
      cbv zeta. rewrite Hc, Hw. reflexivity.
    + simpl. unfold handleMouseMove. rewrite Hd, Ht. cbv zeta.
      rewrite Hc. reflexivity.
  - (* door, without an id *)
    destruct (closest (allDistances p (svgPx - offsetX p) (svgPy - offsetY p)))
      as [[newWall dist]|] eqn:Hc; cbv zeta.
    + destruct (wallTable p newWall (svgPx - offsetX p) (svgPy - offsetY p))
        as [[len off] pos] eqn:Hw. simpl fst.
      unfold handleMouseMove. simpl dragging. rewrite Hd, Ht.
      cbv zeta. rewrite Hc, Hw. reflexivity.
    + simpl. unfold handleMouseMove. rewrite Hd, Ht. cbv zeta.
      rewrite Hc. reflexivity.
  - (* unit resize *)
    destruct (handle d) eqn:Hh; simpl negb; cbv iota.
    2:{ simpl. unfold handleMouseMove. rewrite Hd, Ht, Hi, Hh. reflexivity. }
    destruct (proposedSize p d svgPx svgPy) as [nw nh] eqn:Hp.
    destruct (findById (units p) i) as [el|] eqn:Hf.
    + pose proof (resize_tick_twice p s true el i nw nh) as H2.
      destruct (resizeElement p s true el nw nh) as [w h] eqn:Hr.
      cbn [fst snd] in H2. simpl fst. unfold handleMouseMove. simpl dragging.
      rewrite Hd, Ht, Hi, Hh, Hp, Hf. simpl negb. cbv iota.
      rewrite H2. reflexivity.
    + simpl fst. unfold handleMouseMove. simpl dragging.
      rewrite Hd, Ht, Hi, Hh, Hp, Hf. reflexivity.
  - (* block resize *)
    destruct (handle d) eqn:Hh; simpl negb; cbv iota.
    2:{ simpl. unfold handleMouseMove. rewrite Hd, Ht, Hi, Hh. reflexivity. }
    destruct (proposedSize p d svgPx svgPy) as [nw nh] eqn:Hp.
    destruct (findById (blocks p) i) as [el|] eqn:Hf.
    + pose proof (resize_tick_twice p s false el i nw nh) as H2.
      destruct (resizeElement p s false el nw nh) as [w h] eqn:Hr.
      cbn [fst snd] in H2. simpl fst. unfold handleMouseMove. simpl dragging.
      rewrite Hd, Ht, Hi, Hh, Hp, Hf. simpl negb. cbv iota.
      rewrite H2. reflexivity.
    + simpl fst. unfold handleMouseMove. simpl dragging.
      rewrite Hd, Ht, Hi, Hh, Hp, Hf. reflexivity.
Qed.

(** ** Dragging within the bounding box *)

Lemma clamp_range (hi v : Q) :
  0 <= hi -> 0 <= Qmax 0 (Qmin hi v) /\ Qmax 0 (Qmin hi v) <= hi.
Proof. intros Hhi. minmax_cases; lra. Qed.

(** X5.  A drag tick never takes an element that fits the room out of the
    room's bounding box: from a current position in
    [[0, W - w] x [0, H - h]] the position it chooses is in that range
    too, whatever the pointer and whatever the validity test answers. *)
Theorem X5_drag_stays_in_box (p : Props) (s : State) (v : Q -> Q -> bool)
    (el : Placed) (svgPx svgPy : Q) :
  width el <= roomWidth p -> height el <= roomHeight p ->
  let '(currentX, currentY, (finalX, finalY)) :=
    dragFinal p s v el svgPx svgPy in
  0 <= currentX -> currentX <= roomWidth p - width el ->
  0 <= currentY -> currentY <= roomHeight p - height el ->
  0 <= finalX /\ finalX <= roomWidth p - width el /\
  0 <= finalY /\ finalY <= roomHeight p - height el.
Proof.
  intros Hw Hh. unfold dragFinal.
  set (cx := match localPosition s with Some lp => posX lp | None => x el end).
  set (cy := match localPosition s with Some lp => posY lp | None => y el end).
  set (nx := (svgPx - offsetX p - fst (dragOffset s)) / scale p).
  set (ny := (svgPy - offsetY p - snd (dragOffset s)) / scale p).
  destruct (clamp_range (roomWidth p - width el) nx) as [X0 X1]; [lra|].
  destruct (clamp_range (roomHeight p - height el) ny) as [Y0 Y1]; [lra|].
  set (px := Qmax 0 (Qmin (roomWidth p - width el) nx)) in *.
  set (py := Qmax 0 (Qmin (roomHeight p - height el) ny)) in *.
  pose proof (finalPosition_candidates v cx cy px py) as Hc. cbv zeta in Hc.
  destruct (finalPosition v cx cy px py) as [fx fy].
  intros A B C D.
  destruct Hc as [Hc | [Hc | [Hc | Hc]]]; injection Hc as -> ->; lra.
Qed.

(** Unit A of the drag scenario, dragged towards (2, 2). *)
Lemma X5_drag_stays_in_box_witness :
  let '(_, _, (finalX, finalY)) :=
    dragFinal DragScenario.props DragScenario.state
      (isValidPositionUnit DragScenario.props DragScenario.unitA)
      DragScenario.unitA DragScenario.pointerX DragScenario.pointerY in
  0 <= finalX /\ finalX <= 10 - 4 /\ 0 <= finalY /\ finalY <= 10 - 4.
Proof.
  refine (X5_drag_stays_in_box DragScenario.props DragScenario.state
            (isValidPositionUnit DragScenario.props DragScenario.unitA)
            DragScenario.unitA DragScenario.pointerX DragScenario.pointerY
            _ _ _ _ _ _); vm_compute; discriminate.
Defined.

(** ** Releasing *)

(** X7.  Releasing the mouse after a move tick of a unit drag persists the
    position the tick chose: [onUnitMoveEnd] is called once, with the
    unit's id and the position [(finalX, finalY)] of the tick, also when
    the tick left the position as it was; the release then clears the
    gesture, so that later moves change nothing. *)
Theorem X7_release_persists_tick (p : Props) (h : Handlers) (s : State)
    (d : Dragging) (i : string) (unit : Placed) (lp : LocalPosition)
    (svgPx svgPy : Q) :
  dragging s = Some d -> dragType d = drag_unit ->
  truthyId (dragId d) = Some i ->
  findById (units p) i = Some unit ->
  localPosition s = Some lp ->
  onUnitMoveEnd h = true ->
  let '(_, _, (finalX, finalY)) :=
    dragFinal p s (isValidPositionUnit p unit) unit svgPx svgPy in
  let '(released, calls, wasDragging) :=
    handleMouseUp h (fst (handleMouseMove p s svgPx svgPy)) in
  (exists qx qy, calls = [CallUnitMoveEnd i qx qy] /\
                 qx == finalX /\ qy == finalY) /\
  wasDragging = true /\
  forall qx qy, handleMouseMove p released qx qy = (released, []).
Proof.
  intros Hd Ht Hi Hf Hlp He.
  unfold handleMouseMove at 1. rewrite Hd, Ht, Hi, Hf.
  assert (Hcur : fst (dragFinal p s (isValidPositionUnit p unit) unit
                        svgPx svgPy) = (posX lp, posY lp)).
  { unfold dragFinal. rewrite Hlp. reflexivity. }
  destruct (dragFinal p s (isValidPositionUnit p unit) unit svgPx svgPy)
    as [[cx cy] [fx fy]].
  simpl in Hcur. injection Hcur as -> ->.
  destruct (Num.neqb fx (posX lp) || Num.neqb fy (posY lp)) eqn:C;
    cbn [fst]; unfold handleMouseUp, draggingIs, draggingId;
    simpl dragging; simpl localPosition; rewrite Hd, Ht, Hi, ?Hlp, He;
    simpl; destruct (localDoorPosition s), (localSize s); simpl.
  all: try (repeat split; exists fx, fy; repeat split; reflexivity).
  all: apply orb_false_iff in C; destruct C as [Cx Cy];
    unfold Num.neqb in Cx, Cy;
    apply negb_false_iff, Qeq_bool_iff in Cx, Cy;
    repeat split; exists (posX lp), (posY lp);
    repeat split; symmetry; assumption.
Qed.

(** The release after the tick of the drag scenario. *)
Lemma X7_release_persists_tick_witness :
  let h := mkHandlers true true true true true true None in
  let '(_, _, (finalX, finalY)) :=
    dragFinal DragScenario.props DragScenario.state
      (isValidPositionUnit DragScenario.props DragScenario.unitA)
      DragScenario.unitA DragScenario.pointerX DragScenario.pointerY in
  let '(released, calls, wasDragging) :=
    handleMouseUp h
      (fst (handleMouseMove DragScenario.props DragScenario.state
              DragScenario.pointerX DragScenario.pointerY)) in
  (exists qx qy, calls = [CallUnitMoveEnd "A" qx qy] /\
                 qx == finalX /\ qy == finalY) /\
  wasDragging = true /\
  forall qx qy,
    handleMouseMove DragScenario.props released qx qy = (released, []).
Proof.
  exact (X7_release_persists_tick DragScenario.props
           (mkHandlers true true true true true true None)
           DragScenario.state
           (mkDragging drag_unit (Some "A"%string) false None None None None)
           "A" DragScenario.unitA (mkLocalPosition "A" 0 0)
           DragScenario.pointerX DragScenario.pointerY
           eq_refl eq_refl eq_refl eq_refl eq_refl eq_refl).
Defined.

(** X8.  A move tick calls at most one callback, and what it reports is
    what the tick stored: a unit or block move reports the local position
    of the new state, a door move its local door wall and position. *)
Theorem X8_callbacks_report_state (p : Props) (s : State) (svgPx svgPy : Q) :
  let '(s', calls) := handleMouseMove p s svgPx svgPy in
  (List.length calls <= 1)%nat /\
  forall c, In c calls ->
    match c with
    | CallUnitMove i cx cy | CallBlockMove i cx cy =>
        localPosition s' = Some (mkLocalPosition i cx cy)
    | CallDoorMove w pos =>
        localDoorWall s' = Some w /\ localDoorPosition s' = Some pos
    end.
Proof.
  unfold handleMouseMove.
  destruct (dragging s) as [d|]; [|simpl; split; [lia | tauto]].
  destruct (dragType d), (truthyId (dragId d)) as [i|];
    try (simpl; split; [lia | tauto]).
  - destruct (findById (units p) i) as [unit|];
      [|simpl; split; [lia | tauto]].
    destruct (dragFinal p s (isValidPositionUnit p unit) unit svgPx svgPy)
      as [[cx cy] [fx fy]].
    destruct (Num.neqb fx cx || Num.neqb fy cy), (onUnitMove p); simpl;
      (split; [lia|]); intros c [<- | []] || intros c []; reflexivity.
  - destruct (findById (blocks p) i) as [block|];
      [|simpl; split; [lia | tauto]].
    destruct (dragFinal p s (isValidPositionBlock p block) block svgPx svgPy)
      as [[cx cy] [fx fy]].
    destruct (Num.neqb fx cx || Num.neqb fy cy), (onBlockMove p); simpl;
      (split; [lia|]); intros c [<- | []] || intros c []; reflexivity.
  - cbv zeta.
    destruct (closest _) as [[newWall dist]|]; [|simpl; split; [lia | tauto]].
    destruct (wallTable p newWall _ _) as [[len off] pos].
    destruct (onDoorMove p); simpl; (split; [lia|]);
      intros c [<- | []] || intros c []; split; reflexivity.
  - cbv zeta.
    destruct (closest _) as [[newWall dist]|]; [|simpl; split; [lia | tauto]].
    destruct (wallTable p newWall _ _) as [[len off] pos].
    destruct (onDoorMove p); simpl; (split; [lia|]);
      intros c [<- | []] || intros c []; split; reflexivity.
  - destruct (handle d); cbn [negb]; cbv iota; [|simpl; split; [lia | tauto]].
    destruct (proposedSize p d svgPx svgPy) as [nw nh].
    destruct (findById (units p) i) as [el|];
      [destruct (resizeElement p s true el nw nh)|];
      simpl; split; (lia || tauto).
  - destruct (handle d); cbn [negb]; cbv iota; [|simpl; split; [lia | tauto]].
    destruct (proposedSize p d svgPx svgPy) as [nw nh].
    destruct (findById (blocks p) i) as [el|];
      [destruct (resizeElement p s false el nw nh)|];
      simpl; split; (lia || tauto).
Qed.

(** ** The canvas scale *)

Lemma roomWidth_positive (p : Props) : 0 <= propWidth p -> 0 < roomWidth p.
Proof.
  intros H. unfold roomWidth, Num.orElse.
  destruct (Num.truthy (propWidth p)) eqn:E; [|lra].
  apply NumFacts.truthy_true in E. lra.
Qed.

Lemma roomHeight_positive (p : Props) : 0 <= propHeight p -> 0 < roomHeight p.
Proof.
  intros H. unfold roomHeight, Num.orElse.
  destruct (Num.truthy (propHeight p)) eqn:E; [|lra].
  apply NumFacts.truthy_true in E. lra.
Qed.

(** The scaled room takes 85% of the canvas on one axis and no more on
    the other. *)
Lemma scaled_room (p : Props) :
  0 < roomWidth p -> 0 < roomHeight p ->
  0 < scale p /\
  roomWidth p * scale p <= 680 /\ roomHeight p * scale p <= 510 /\
  (roomWidth p * scale p == 680 \/ roomHeight p * scale p == 510).
Proof.
  intros HW HH. unfold scale, canvasWidth, canvasHeight.
  set (W := roomWidth p) in *. set (H := roomHeight p) in *.
  assert (Ha : W * (800 / W) == 800) by (field; lra).
  assert (Hb : H * (600 / H) == 600) by (field; lra).
  assert (Ha0 : 0 < 800 / W) by (apply Qlt_shift_div_l; lra).
  assert (Hb0 : 0 < 600 / H) by (apply Qlt_shift_div_l; lra).
  set (a := 800 / W) in *. set (b := 600 / H) in *.
  destruct (Q.min_spec a b) as [[Hlt Hm] | [Hle Hm]]; rewrite Hm.
  - assert (H * a <= H * b) by (apply Qmult_le_l; lra).
    repeat split; lra.
  - assert (W * b <= W * a) by (apply Qmult_le_l; lra).
    repeat split; lra.
Qed.

(** X9.  For every non-negative room width and height, a zero standing
    for a missing dimension, the scale is positive and the scaled room
    lies inside the 800 x 600 canvas with a margin of at least 60 on the
    left and right and 45 above and below. *)
Theorem X9_room_fits_canvas (p : Props) :
  0 <= propWidth p -> 0 <= propHeight p ->
  0 < scale p /\
  60 <= offsetX p /\ offsetX p + roomWidth p * scale p <= canvasWidth - 60 /\
  45 <= offsetY p /\ offsetY p + roomHeight p * scale p <= canvasHeight - 45.
Proof.
  intros HW HH.
  destruct (scaled_room p (roomWidth_positive p HW) (roomHeight_positive p HH))
    as (Hs & Hw & Hh & _).
  unfold offsetX, offsetY, canvasWidth, canvasHeight.
  set (rw := roomWidth p * scale p) in *.
  set (rh := roomHeight p * scale p) in *.
  unfold Qdiv. change (/ 2) with (1 # 2). repeat split; lra.
Qed.

(** A room 20 wide whose height is missing. *)
Lemma X9_room_fits_canvas_witness :
  let p := mkProps 20 0 [] [] rectangle None None None None true true true in
  0 < scale p /\ 60 <= offsetX p /\ 45 <= offsetY p.
Proof.
  cbv zeta.
  assert (H20 : 0 <= 20) by lra. assert (H0 : 0 <= 0) by lra.
  destruct (X9_room_fits_canvas
              (mkProps 20 0 [] [] rectangle None None None None true true true)
              H20 H0) as (A & B & _ & C & _).
  repeat split; assumption.
Defined.

(** ** The wall nearest to the pointer *)

(** X10.  In a room without internal walls (a rectangle, or an L-shape
    with a cutout value missing) the door drag picks a perimeter wall, and
    no perimeter wall is nearer to the pointer than the one it picks. *)
Theorem X10_nearest_perimeter_wall (p : Props) (localX localY : Q) :
  isLShape (shape p) (shapeCutoutWidth p) (shapeCutoutHeight p)
    (shapeCutoutCorner p) = false ->
  exists w d,
    closest (allDistances p localX localY) = Some (w, Plain d) /\
    In (w, d) [ (north, localY); (south, roomHeight p * scale p - localY);
                (west, localX); (east, roomWidth p * scale p - localX) ] /\
    d <= localY /\ d <= roomHeight p * scale p - localY /\
    d <= localX /\ d <= roomWidth p * scale p - localX.
Proof.
  intros HL. unfold allDistances. rewrite HL. cbv zeta.
  set (rh := roomHeight p * scale p). set (rw := roomWidth p * scale p).
  unfold closest. cbn [fold_left snd dist_ltb].
  destruct (Num.ltb (rh - localY) localY) eqn:E1;
    [apply NumFacts.ltb_lt in E1 | apply NumFacts.ltb_ge in E1];
    cbn [snd dist_ltb].
  - destruct (Num.ltb localX (rh - localY)) eqn:E2;
      [apply NumFacts.ltb_lt in E2 | apply NumFacts.ltb_ge in E2];
      cbn [snd dist_ltb].
    + destruct (Num.ltb (rw - localX) localX) eqn:E3;
        [apply NumFacts.ltb_lt in E3 | apply NumFacts.ltb_ge in E3];
        cbn [snd dist_ltb]; eexists; eexists;
          (split; [reflexivity|]); simpl; (split; [tauto|]); lra.
    + destruct (Num.ltb (rw - localX) (rh - localY)) eqn:E3;
        [apply NumFacts.ltb_lt in E3 | apply NumFacts.ltb_ge in E3];
        cbn [snd dist_ltb]; eexists; eexists;
          (split; [reflexivity|]); simpl; (split; [tauto|]); lra.
  - destruct (Num.ltb localX localY) eqn:E2;
      [apply NumFacts.ltb_lt in E2 | apply NumFacts.ltb_ge in E2];
      cbn [snd dist_ltb].
    + destruct (Num.ltb (rw - localX) localX) eqn:E3;
        [apply NumFacts.ltb_lt in E3 | apply NumFacts.ltb_ge in E3];
        cbn [snd dist_ltb]; eexists; eexists;
          (split; [reflexivity|]); simpl; (split; [tauto|]); lra.
    + destruct (Num.ltb (rw - localX) localY) eqn:E3;
        [apply NumFacts.ltb_lt in E3 | apply NumFacts.ltb_ge in E3];
        cbn [snd dist_ltb]; eexists; eexists;
          (split; [reflexivity|]); simpl; (split; [tauto|]); lra.
Qed.

(** The pointer near the right wall of the wide-door room: east. *)
Lemma X10_nearest_perimeter_wall_witness :
  exists d,
    closest (allDistances WideDoorScenario.props 500 100)
    = Some (east, Plain d).
Proof.
  destruct (X10_nearest_perimeter_wall WideDoorScenario.props 500 100 eq_refl)
    as (w & d & Hc & Hin & _).
  exists d. rewrite Hc. vm_compute in Hc. injection Hc as <- _. reflexivity.
Defined.

(** ** The door inside its wall *)

(** The opening of the rendered door starts half the door's scaled width
    before its centre and is as long as the door is wide. *)
Lemma opening_table (p : Props) (w : DoorWall) (lx ly position : Q) :
  wallExists p w = true ->
  let '(len, off, _) := wallTable p w lx ly in
  let g := renderDoor p w position in
  openingStart w g == off + position * len - doorWidthOrOne p * scale p / 2 /\
  openingExtent w g == doorWidthOrOne p * scale p.
Proof.
  unfold wallExists, wallTable, renderDoor, Door, openingStart, openingExtent.
  destruct (isLShape _ _ _ _) eqn:HL.
  - destruct w; intros _; simpl;
      destruct (shapeCutoutCorner p) as [[| | |]|]; simpl;
      split; reflexivity.
  - destruct w; simpl; intros Hw; try discriminate; split; reflexivity.
Qed.

(** X11.  When the door with its two margins fits the wall (the clamp
    range is not empty), the door placed by a door tick lies inside the
    wall: its opening starts at least 2% of the wall's length after the
    wall's start and ends at least 2% before the wall's end, wherever the
    pointer is. *)
Theorem X11_door_inside_wall (p : Props) (w : DoorWall)
    (lx ly len off pos : Q) :
  wallExists p w = true ->
  wallTable p w lx ly = (len, off, pos) ->
  0 < scale p -> 0 < len -> 0 < doorWidthOrOne p ->
  marginLow p len <= marginHigh p len ->
  let g := renderDoor p w (clampDoor p len pos) in
  off + (2 # 100) * len <= openingStart w g /\
  openingStart w g + openingExtent w g <= off + len - (2 # 100) * len.
Proof.
  intros Hex Htab Hs Hl Hd Hm. cbv zeta.
  pose proof (opening_table p w lx ly (clampDoor p len pos) Hex) as Ho.
  rewrite Htab in Ho. cbv zeta in Ho. destruct Ho as [Hst Hext].
  rewrite Hst, Hext. clear Hst Hext.
  rewrite clampDoor_bounds.
  assert (Hshare : doorWidthOrOne p / effectiveWallLength p len * len
                   == doorWidthOrOne p * scale p).
  { unfold effectiveWallLength. field. split; lra. }
  unfold marginLow, marginHigh in *.
  set (doorW := doorWidthOrOne p / effectiveWallLength p len) in *.
  set (dws := doorWidthOrOne p * scale p) in *.
  unfold Qdiv in *. change (/ 2) with (1 # 2) in *.
  set (lo := doorW * (1 # 2) + (2 # 100)) in *.
  set (hi := 1 - doorW * (1 # 2) - (2 # 100)) in *.
  assert (Hc : lo <= Qmax lo (Qmin hi pos) /\ Qmax lo (Qmin hi pos) <= hi).
  { minmax_cases; lra. }
  set (c := Qmax lo (Qmin hi pos)) in *. clearbody c.
  destruct Hc as [Hc1 Hc2].
  assert (H1 : 0 <= (c - lo) * len) by (apply Qmult_le_0_compat; lra).
  assert (H2 : 0 <= (hi - c) * len) by (apply Qmult_le_0_compat; lra).
  unfold lo, hi in H1, H2. split; lra.
Qed.

(** A 1 m door dragged to the far left of the 6 m south wall of the
    L-shape room. *)
Lemma X11_door_inside_wall_witness :
  let p := LShapeScenario.props in
  let len := roomWidth p * scale p - numOrZero (shapeCutoutWidth p) * scale p in
  let g := renderDoor p south (clampDoor p len ((0 - 0) / len)) in
  0 + (2 # 100) * len <= openingStart south g /\
  openingStart south g + openingExtent south g <= 0 + len - (2 # 100) * len.
Proof.
  cbv zeta.
  refine (X11_door_inside_wall LShapeScenario.props south 0 0 _ 0 _
            eq_refl eq_refl _ _ _ _);
    vm_compute; (reflexivity || discriminate).
Defined.

(** X12.  The swing arc of a rendered door is the quarter circle about
    the hinge: its radius is the door's scaled width, both its ends are
    at that distance from the hinge, the radii to its two ends are
    perpendicular, the turn from its start to its end about the hinge is
    in the direction of its sweep flag (so that, of the two circles of
    that radius through its ends, the arc drawn is on the one centred on
    the hinge), and one of its ends is the end of the open leaf. *)
Theorem X12_swing_arc (p : Props) (w : DoorWall) (position : Q) :
  wallExists p w = true ->
  let g := renderDoor p w position in
  let dw := doorWidthOrOne p * scale p in
  let hinge := (hingeX g, hingeY g) in
  let leafEnd := (leafEndX g, leafEndY g) in
  exists arc,
    arcPath g = Some arc /\
    arcRadius arc = dw /\
    sqDist (arcFrom arc) hinge == dw * dw /\
    sqDist (arcTo arc) hinge == dw * dw /\
    dotFrom hinge (arcFrom arc) (arcTo arc) == 0 /\
    crossFrom hinge (arcFrom arc) (arcTo arc)
    == (if arcSweep arc then dw * dw else - (dw * dw)) /\
    (arcFrom arc = leafEnd \/ arcTo arc = leafEnd).
Proof.
  unfold wallExists, renderDoor, Door, sqDist, dotFrom, crossFrom.
  destruct (isLShape _ _ _ _) eqn:HL.
  - destruct w; intros _; cbv zeta; simpl;
      destruct (shapeCutoutCorner p) as [[| | |]|]; simpl;
      eexists; (split; [reflexivity|]); simpl;
      (split; [reflexivity|]);
      (split; [ring|]); (split; [ring|]); (split; [ring|]);
      (split; [ring | tauto]).
  - destruct w; simpl; intros Hw; try discriminate;
      eexists; (split; [reflexivity|]); simpl;
      (split; [reflexivity|]);
      (split; [ring|]); (split; [ring|]); (split; [ring|]);
      (split; [ring | tauto]).
Qed.

(** The door on the vertical cutout wall of the L-shape room, which
    swings to the left, away from the cutout at the bottom right. *)
Lemma X12_swing_arc_witness :
  exists arc,
    arcPath (renderDoor LShapeScenario.props cutout_vertical (1 # 2))
    = Some arc /\
    arcSweep arc = true /\
    crossFrom
      (hingeX (renderDoor LShapeScenario.props cutout_vertical (1 # 2)),
       hingeY (renderDoor LShapeScenario.props cutout_vertical (1 # 2)))
      (arcFrom arc) (arcTo arc)
    == (if arcSweep arc
        then doorWidthOrOne LShapeScenario.props * scale LShapeScenario.props
             * (doorWidthOrOne LShapeScenario.props
                * scale LShapeScenario.props)
        else - (doorWidthOrOne LShapeScenario.props
                * scale LShapeScenario.props
                * (doorWidthOrOne LShapeScenario.props
                   * scale LShapeScenario.props))).
Proof.
  destruct (X12_swing_arc LShapeScenario.props cutout_vertical (1 # 2)
              eq_refl) as (arc & Ha & _ & _ & _ & _ & Hc & _).
  exists arc. split; [exact Ha|]. split; [|exact Hc].
  vm_compute in Ha. injection Ha as <-. reflexivity.
Defined.

(** ** Legs and cutout in the L-shape editor *)

(** X13.  Converting a room with a positive cutout to legs and back gives
    the room again: the bounding box and the cutout that [legsToBackend]
    reports for the legs of [backendToLegs] are the ones converted. *)
Theorem X13_backend_legs_backend (W H cw ch : Q) (o : CutoutCorner) :
  0 < cw -> 0 < ch ->
  let b := legsToBackend (backendToLegs W H (Some cw) (Some ch) o) in
  backendWidth b == W /\ backendHeight b == H /\
  backendCutoutWidth b == cw /\ backendCutoutHeight b == ch.
Proof.
  intros Hcw Hch. cbv zeta.
  assert (Tw : Num.truthy cw = true) by (apply NumFacts.truthy_true; lra).
  assert (Th : Num.truthy ch = true) by (apply NumFacts.truthy_true; lra).
  unfold backendToLegs, Num.orElse. rewrite Tw, Th.
  unfold legsToBackend. destruct o; simpl; repeat split; minmax_cases; lra.
Qed.

(** The room of scenario D. *)
Lemma X13_backend_legs_backend_witness :
  backendCutoutWidth
    (legsToBackend (backendToLegs 10 10 (Some 4) (Some 4) bottom_right)) == 4.
Proof.
  assert (H4 : 0 < 4) by lra.
  exact (proj1 (proj2 (proj2
           (X13_backend_legs_backend 10 10 4 4 bottom_right H4 H4)))).
Defined.

(** X14.  Converting legs that form an L (the vertical leg narrower than
    the horizontal one, and of positive height) to a room and back gives
    the legs again. *)
Theorem X14_legs_backend_legs (config : LShapeConfig) :
  verticalLegWidth config < horizontalLegWidth config ->
  0 < verticalLegHeight config ->
  let b := legsToBackend config in
  let config' :=
    backendToLegs (backendWidth b) (backendHeight b)
      (Some (backendCutoutWidth b)) (Some (backendCutoutHeight b))
      (orientation config) in
  orientation config' = orientation config /\
  verticalLegWidth config' == verticalLegWidth config /\
  verticalLegHeight config' == verticalLegHeight config /\
  horizontalLegWidth config' == horizontalLegWidth config /\
  horizontalLegHeight config' == horizontalLegHeight config.
Proof.
  intros Hw Hh. cbv zeta.
  assert (Hcw : backendCutoutWidth (legsToBackend config)
                == horizontalLegWidth config - verticalLegWidth config).
  { unfold legsToBackend. destruct (orientation config); simpl;
      minmax_cases; lra. }
  assert (Hch : backendCutoutHeight (legsToBackend config)
                == verticalLegHeight config).
  { unfold legsToBackend. simpl. minmax_cases; lra. }
  assert (HW : backendWidth (legsToBackend config)
               == horizontalLegWidth config).
  { unfold legsToBackend. simpl. minmax_cases; lra. }
  assert (HH : backendHeight (legsToBackend config)
               == verticalLegHeight config + horizontalLegHeight config).
  { unfold legsToBackend. simpl. reflexivity. }
  assert (Tw : Num.truthy (backendCutoutWidth (legsToBackend config)) = true)
    by (apply NumFacts.truthy_true; lra).
  assert (Th : Num.truthy (backendCutoutHeight (legsToBackend config)) = true)
    by (apply NumFacts.truthy_true; lra).
  set (b := legsToBackend config) in *. clearbody b.
  unfold backendToLegs, Num.orElse. rewrite Tw, Th.
  cbn [orientation verticalLegWidth verticalLegHeight horizontalLegWidth
       horizontalLegHeight].
  repeat split; lra.
Qed.

(** A vertical leg 6 x 4 on a horizontal leg 10 x 6. *)
Lemma X14_legs_backend_legs_witness :
  let config := mkLShapeConfig top_left 6 4 10 6 in
  let b := legsToBackend config in
  verticalLegWidth
    (backendToLegs (backendWidth b) (backendHeight b)
       (Some (backendCutoutWidth b)) (Some (backendCutoutHeight b)) top_left)
  == 6.
Proof.
  cbv zeta.
  assert (H1 : 6 < 10) by lra. assert (H2 : 0 < 4) by lra.
  exact (proj1 (proj2
           (X14_legs_backend_legs (mkLShapeConfig top_left 6 4 10 6) H1 H2))).
Defined.

(** X15.  Opened for a room with no cutout yet (its width and height
    missing or zero), the editor starts from a well-formed L: the
    configuration it starts with converts to the room's bounding box, with
    10 for a missing dimension, and a cutout of 40% of each dimension,
    which satisfies the shape invariant. *)
Theorem X15_editor_default_cutout (totalWidth totalHeight : Q)
    (oc : option CutoutCorner) (ocw och : option Q) :
  0 <= totalWidth -> 0 <= totalHeight ->
  truthyNum ocw = false -> truthyNum och = false ->
  let b := legsToBackend (initialConfig totalWidth totalHeight oc ocw och) in
  backendWidth b == Num.orElse totalWidth 10 /\
  backendHeight b == Num.orElse totalHeight 10 /\
  backendCutoutWidth b == (4 # 10) * backendWidth b /\
  backendCutoutHeight b == (4 # 10) * backendHeight b /\
  shapeInvariant (backendWidth b) (backendHeight b)
    (backendCutoutWidth b) (backendCutoutHeight b).
Proof.
  intros HW HH Hw Hh. cbv zeta.
  assert (PW : 0 < Num.orElse totalWidth 10).
  { unfold Num.orElse. destruct (Num.truthy totalWidth) eqn:E; [|lra].
    apply NumFacts.truthy_true in E. lra. }
  assert (PH : 0 < Num.orElse totalHeight 10).
  { unfold Num.orElse. destruct (Num.truthy totalHeight) eqn:E; [|lra].
    apply NumFacts.truthy_true in E. lra. }
  set (W := Num.orElse totalWidth 10) in *.
  set (H := Num.orElse totalHeight 10) in *.
  unfold initialConfig, backendToLegs. fold W H.
  assert (Ecw : match ocw with
                | Some q => Num.orElse q (W * (4 # 10))
                | None => W * (4 # 10)
                end = W * (4 # 10)).
  { destruct ocw as [q|]; [|reflexivity]. simpl in Hw.
    unfold Num.orElse. now rewrite Hw. }
  assert (Ech : match och with
                | Some q => Num.orElse q (H * (4 # 10))
                | None => H * (4 # 10)
                end = H * (4 # 10)).
  { destruct och as [q|]; [|reflexivity]. simpl in Hh.
    unfold Num.orElse. now rewrite Hh. }
  rewrite Ecw, Ech. unfold legsToBackend, shapeInvariant.
  destruct (match oc with Some c => c | None => bottom_right end); simpl;
    repeat split; minmax_cases; lra.
Qed.

(** A room 8 wide with no height and no cutout. *)
Lemma X15_editor_default_cutout_witness :
  backendCutoutHeight (legsToBackend (initialConfig 8 0 None None (Some 0)))
  == (4 # 10)
     * backendHeight (legsToBackend (initialConfig 8 0 None None (Some 0))).
Proof.
  assert (H8 : 0 <= 8) by lra. assert (H0 : 0 <= 0) by lra.
  exact (proj1 (proj2 (proj2 (proj2
           (X15_editor_default_cutout 8 0 None None (Some 0) H8 H0
              eq_refl eq_refl))))).
Defined.

(** X16.  The area shown by the live preview is the area of the bounding
    box less the area of the cutout that [legsToBackend] reports, for legs
    of non-negative height; when the vertical leg is no wider than the
    horizontal one it is the sum of the areas of the two legs. *)
Theorem X16_preview_area (config : LShapeConfig) :
  0 <= verticalLegHeight config ->
  let b := legsToBackend config in
  totalArea config
  == backendWidth b * backendHeight b
     - backendCutoutWidth b * backendCutoutHeight b /\
  (verticalLegWidth config <= horizontalLegWidth config ->
   totalArea config
   == verticalLegWidth config * verticalLegHeight config
      + horizontalLegWidth config * horizontalLegHeight config).
Proof.
  intros Hvh. cbv zeta. unfold totalArea.
  assert (Hcw : backendCutoutWidth (legsToBackend config)
                == Qmax (verticalLegWidth config) (horizontalLegWidth config)
                   - verticalLegWidth config).
  { unfold legsToBackend.
    pose proof (Q.le_max_l (verticalLegWidth config)
                  (horizontalLegWidth config)).
    destruct (orientation config); simpl; apply Q.max_r; lra. }
  assert (Hch : backendCutoutHeight (legsToBackend config)
                == verticalLegHeight config).
  { unfold legsToBackend. simpl. rewrite Q.max_r; [ring | lra]. }
  split.
  - rewrite Hcw, Hch. unfold legsToBackend. simpl. ring.
  - intros Hle. rewrite (Q.max_r _ _ Hle). ring.
Qed.

(** A vertical leg 6 x 4 on a horizontal leg 10 x 6: 24 + 60. *)
Lemma X16_preview_area_witness :
  totalArea (mkLShapeConfig top_left 6 4 10 6) == 6 * 4 + 10 * 6.
Proof.
  assert (H1 : 0 <= 4) by lra. assert (H2 : 6 <= 10) by lra.
  exact (proj2 (X16_preview_area (mkLShapeConfig top_left 6 4 10 6) H1) H2).
Defined.

(** ** The initial position of a new unit *)

(** X17.  For a unit that fits the room's bounding box with half a meter
    to spare on every side, [getValidInitialPosition] returns the top-left
    slot (0.5, 0.5), except in an L-shape room whose cutout is at the top
    left, where it returns the top-right slot; in both cases the unit
    placed there keeps at least 0.5 from every side of the bounding box. *)
Theorem X17_initial_position (r : Room) (unitWidth unitHeight : Q) :
  let roomW := nullOrElse (room_width r) 10 in
  let roomH := nullOrElse (room_height r) 10 in
  unitWidth + 1 <= roomW -> unitHeight + 1 <= roomH ->
  let '(px, py) := getValidInitialPosition (Some r) unitWidth unitHeight in
  (px, py)
  = (if isLShape (room_shape r) (shape_cutout_width r) (shape_cutout_height r)
          (shape_cutout_corner r)
        && cornerIs (shape_cutout_corner r) top_left
     then (roomW - unitWidth - (5 # 10), 5 # 10)
     else (5 # 10, 5 # 10)) /\
  (5 # 10) <= px /\ px + unitWidth <= roomW - (5 # 10) /\
  (5 # 10) <= py /\ py + unitHeight <= roomH - (5 # 10).
Proof.
  cbv zeta. intros Hw Hh. unfold getValidInitialPosition, isLShape.
  set (roomW := nullOrElse (room_width r) 10) in *.
  set (roomH := nullOrElse (room_height r) 10) in *.
  assert (Tw : Num.truthy (nullOrElse (shape_cutout_width r) 0)
               = truthyNum (shape_cutout_width r)).
  { destruct (shape_cutout_width r) as [q|]; [|reflexivity].
    simpl. unfold Num.orElse. destruct (Num.truthy q) eqn:E; [exact E|].
    reflexivity. }
  assert (Th : Num.truthy (nullOrElse (shape_cutout_height r) 0)
               = truthyNum (shape_cutout_height r)).
  { destruct (shape_cutout_height r) as [q|]; [|reflexivity].
    simpl. unfold Num.orElse. destruct (Num.truthy q) eqn:E; [exact E|].
    reflexivity. }
  rewrite Tw, Th.
  destruct (shape_eqb (room_shape r) l_shape && truthyNum (shape_cutout_width r)
            && truthyNum (shape_cutout_height r)
            && truthyCorner (shape_cutout_corner r)) eqn:G.
  - assert (Hx : Qle_bool 0 (roomW - unitWidth - (5 # 10)) = true)
      by (apply Qle_bool_iff; lra).
    destruct (shape_cutout_corner r) as [[| | |]|]; simpl;
      rewrite ?Hx; simpl; repeat split; lra.
  - simpl. repeat split; lra.
Qed.

(** A 2 x 1 unit in a 10 x 10 room with a 4 x 4 cutout at the top left:
    the top-right slot (7.5, 0.5). *)
Lemma X17_initial_position_witness :
  getValidInitialPosition
    (Some (mkRoom (Some 10) (Some 10) l_shape (Some 4) (Some 4)
             (Some top_left))) 2 1
  = (10 - 2 - (5 # 10), 5 # 10).
Proof.
  pose proof (X17_initial_position
                (mkRoom (Some 10) (Some 10) l_shape (Some 4) (Some 4)
                   (Some top_left)) 2 1) as H.
  cbv zeta in H.
  assert (H1 : 2 + 1 <= nullOrElse (Some 10) 10) by (vm_compute; discriminate).
  assert (H2 : 1 + 1 <= nullOrElse (Some 10) 10) by (vm_compute; discriminate).
  specialize (H H1 H2).
  destruct (getValidInitialPosition _ 2 1) as [px py].
  destruct H as [H _]. exact H.
Defined.

(** ** The outline and the inside test *)

Lemma scale_le (a b sc : Q) : 0 < sc -> a <= b -> a * sc <= b * sc.
Proof. intros Hs H. apply Qmult_le_compat_r; lra. Qed.

(** X18.  The outline drawn and the inside test agree: in a room whose
    cutout corner is set whenever its shape is an L with a cutout width
    and height, no vertex of the outline of [getRoomPath] lies strictly
    inside a rectangle that [isInsideRoom] accepts. *)
Theorem X18_outline_outside_rectangles (rx ry rw rh W H sc : Q)
    (shape : RoomShape) (ocw och : option Q) (oc : option CutoutCorner) :
  0 < sc ->
  (shape = l_shape -> truthyNum ocw = true -> truthyNum och = true ->
   oc <> None) ->
  isInsideRoom rx ry rw rh W H shape ocw och oc = true ->
  forall v, In v (pathVertices (getRoomPath W H sc shape ocw och oc)) ->
            ~ strictlyInside sc rx ry rw rh v.
Proof.
  intros Hs Hcorner Hin.
  apply isInsideRoom_prop in Hin. destruct Hin as [Hbox Hcut].
  unfold withinBox in Hbox. destruct Hbox as (B1 & B2 & B3 & B4).
  pose proof (scale_le _ _ sc Hs B1) as S1.
  pose proof (scale_le _ _ sc Hs B2) as S2.
  pose proof (scale_le _ _ sc Hs B3) as S3.
  pose proof (scale_le _ _ sc Hs B4) as S4.
  unfold getRoomPath, strictlyInside.
  destruct (shape_eqb shape rectangle || negb (truthyNum ocw)
            || negb (truthyNum och)) eqn:G.
  - intros v Hv. simpl in Hv.
    destruct Hv as [<- | [<- | [<- | [<- | []]]]]; simpl; lra.
  - apply orb_false_iff in G. destruct G as [G Gh].
    apply orb_false_iff in G. destruct G as [Gs Gw].
    apply negb_false_iff in Gw, Gh.
    assert (shape = l_shape) as -> by (destruct shape; [discriminate | reflexivity]).
    specialize (Hcorner eq_refl Gw Gh).
    destruct oc as [c|]; [|congruence]. clear Hcorner.
    assert (HL : isLShape l_shape ocw och (Some c) = true)
      by (unfold isLShape; now rewrite Gw, Gh).
    specialize (Hcut HL).
    set (cw := numOrZero ocw) in *. set (ch := numOrZero och) in *.
    destruct c; simpl in Hcut;
      match type of Hcut with
      | ~ (?a < ?b /\ ?c < ?d /\ ?e < ?f /\ ?g < ?k) =>
          destruct (Qlt_le_dec a b) as [L1 | L1];
          [destruct (Qlt_le_dec c d) as [L2 | L2];
           [destruct (Qlt_le_dec e f) as [L3 | L3];
            [destruct (Qlt_le_dec g k) as [L4 | L4];
             [exfalso; apply Hcut; tauto
             | pose proof (scale_le _ _ sc Hs L4) as L]
            | pose proof (scale_le _ _ sc Hs L3) as L]
           | pose proof (scale_le _ _ sc Hs L2) as L]
          | pose proof (scale_le _ _ sc Hs L1) as L]
      end;
      intros v Hv; simpl in Hv;
      destruct Hv as [<- | [<- | [<- | [<- | [<- | [<- | []]]]]]];
      simpl; lra.
Qed.

(** The inner corner of the L-shape room, at (6, 6) in meters, and the
    4 x 2 rectangle flush against the cutout. *)
Lemma X18_outline_outside_rectangles_witness :
  ~ strictlyInside 51 2 6 4 2 (10 * 51 - 4 * 51, 10 * 51 - 4 * 51).
Proof.
  refine (X18_outline_outside_rectangles 2 6 4 2 10 10 51 l_shape
            (Some 4) (Some 4) (Some bottom_right) _ _ eq_refl
            (10 * 51 - 4 * 51, 10 * 51 - 4 * 51) _).
  - lra.
  - intros _ _ _. discriminate.
  - simpl. tauto.
Defined.

(** ** What the validity test guarantees *)

(** X19.  A position that the unit drag accepts for a unit puts the unit
    within the room's bounding box, and there the overlap test is false,
    in both orders, against every block and against every unit with
    another id. *)
Theorem X19_valid_position_sound (p : Props) (unit : Placed) (px py : Q) :
  isValidPositionUnit p unit px py = true ->
  withinBox px py (width unit) (height unit) (roomWidth p) (roomHeight p) /\
  (forall o, In o (units p) -> id o <> id unit ->
     rectanglesOverlap px py (width unit) (height unit)
       (x o) (y o) (width o) (height o) = false /\
     rectanglesOverlap (x o) (y o) (width o) (height o)
       px py (width unit) (height unit) = false) /\
  (forall b, In b (blocks p) ->
     rectanglesOverlap px py (width unit) (height unit)
       (x b) (y b) (width b) (height b) = false /\
     rectanglesOverlap (x b) (y b) (width b) (height b)
       px py (width unit) (height unit) = false).
Proof.
  unfold isValidPositionUnit.
  destruct (isInsideRoom px py (width unit) (height unit) _ _ _ _ _ _) eqn:Hin;
    [|discriminate].
  cbn [negb]. cbv zeta. rewrite andb_true_iff, !negb_true_iff.
  intros [Hu Hb]. split; [eapply isInsideRoom_box; exact Hin|].
  assert (Hsym : forall o,
            rectanglesOverlap px py (width unit) (height unit)
              (x o) (y o) (width o) (height o) = false ->
            rectanglesOverlap (x o) (y o) (width o) (height o)
              px py (width unit) (height unit) = false).
  { intros o Ho. rewrite <- Ho. apply eq_true_iff_eq.
    rewrite !rectanglesOverlap_spec. unfold tolerance.
    split; intros (A & B & C & D); repeat split; lra. }
  split.
  - intros o Ho Hid.
    assert (Hov : rectanglesOverlap px py (width unit) (height unit)
                    (x o) (y o) (width o) (height o) = false).
    { destruct (rectanglesOverlap px py _ _ (x o) _ _ _) eqn:E;
        [|reflexivity].
      rewrite <- Hu. symmetry. apply existsb_exists. exists o.
      split; [exact Ho|]. rewrite E, andb_true_r.
      apply negb_true_iff, String.eqb_neq. exact Hid. }
    split; [exact Hov | apply Hsym, Hov].
  - intros b Hbk.
    assert (Hov : rectanglesOverlap px py (width unit) (height unit)
                    (x b) (y b) (width b) (height b) = false).
    { destruct (rectanglesOverlap px py _ _ (x b) _ _ _) eqn:E;
        [|reflexivity].
      rewrite <- Hb. symmetry. apply existsb_exists. exists b. tauto. }
    split; [exact Hov | apply Hsym, Hov].
Qed.

(** Unit A of the drag scenario slid to (2, 0): clear of unit B. *)
Lemma X19_valid_position_sound_witness :
  rectanglesOverlap 2 0 4 4 4 4 4 4 = false.
Proof.
  destruct (X19_valid_position_sound DragScenario.props DragScenario.unitA
              2 0 eq_refl) as (_ & Hu & _).
  destruct (Hu DragScenario.unitB) as [H _].
  - simpl. tauto.
  - discriminate.
  - exact H.
Defined.

(** ** What a resize tick can do *)

(** X20.  Shrinking always succeeds: when the size kept from the previous
    tick is valid and the proposed size, capped at the bounding box, is no
    larger than it in either dimension, the resize commits the capped
    size. *)
Theorem X20_shrink_commits (p : Props) (s : State) (isUnit : bool)
    (el : Placed) (newWidth newHeight : Q) :
  let w := Qmin newWidth (roomWidth p - x el) in
  let h := Qmin newHeight (roomHeight p - y el) in
  validSize p isUnit el (keptWidth s el) (keptHeight s el) = true ->
  w <= keptWidth s el -> h <= keptHeight s el ->
  resizeElement p s isUnit el newWidth newHeight = (w, h).
Proof.
  cbv zeta. intros Hv Hw Hh. rewrite resizeElement_spec. cbv zeta.
  now rewrite (validSize_shrinks p isUnit el _ _ _ _ Hw Hh Hv).
Qed.

(** The block of scenario F shrunk from 2 x 2 to 1.5 x 1. *)
Lemma X20_shrink_commits_witness :
  resizeElement ResizeScenario.props ResizeScenario.state false
    ResizeScenario.block (15 # 10) 1
  = (Qmin (15 # 10) (10 - 0), Qmin 1 (10 - 0)).
Proof.
  refine (X20_shrink_commits ResizeScenario.props ResizeScenario.state false
            ResizeScenario.block (15 # 10) 1 eq_refl _ _);
    vm_compute; discriminate.
Defined.

(** X21.  A resize tick keeps the size within its range: when the
    element's origin leaves at least 0.5 of room in each dimension and the
    size kept from the previous tick is between 0.5 and the room left, so
    is the size the tick commits, whatever the pointer proposes. *)
Theorem X21_resize_range (p : Props) (s : State) (d : Dragging)
    (isUnit : bool) (el : Placed) (svgPx svgPy : Q) :
  (5 # 10) <= keptWidth s el -> keptWidth s el <= roomWidth p - x el ->
  (5 # 10) <= keptHeight s el -> keptHeight s el <= roomHeight p - y el ->
  let '(newWidth, newHeight) := proposedSize p d svgPx svgPy in
  let '(w, h) := resizeElement p s isUnit el newWidth newHeight in
  (5 # 10) <= w /\ w <= roomWidth p - x el /\
  (5 # 10) <= h /\ h <= roomHeight p - y el.
Proof.
  intros W0 W1 H0 H1. unfold proposedSize.
  destruct (rawSize p d svgPx svgPy) as [rawWidth rawHeight].
  pose proof (rounded_floor rawWidth) as (A & _).
  pose proof (rounded_floor rawHeight) as (B & _).
  cbv zeta in A, B. cbv zeta.
  set (nw := Num.round (Qmax (5 # 10) rawWidth * 10) / 10) in *.
  set (nh := Num.round (Qmax (5 # 10) rawHeight * 10) / 10) in *.
  rewrite resizeElement_spec. cbv zeta.
  destruct (validSize p isUnit el _ _).
  - repeat split; minmax_cases; lra.
  - repeat split; lra.
Qed.

(** The resize of scenario F, proposed 3 x 3. *)
Lemma X21_resize_range_witness :
  let '(newWidth, newHeight) :=
    proposedSize ResizeScenario.props ResizeScenario.gesture
      ResizeScenario.pointerX ResizeScenario.pointerY in
  let '(w, h) :=
    resizeElement ResizeScenario.props ResizeScenario.state false
      ResizeScenario.block newWidth newHeight in
  (5 # 10) <= w /\ w <= 10 - 0 /\ (5 # 10) <= h /\ h <= 10 - 0.
Proof.
  refine (X21_resize_range ResizeScenario.props ResizeScenario.state
            ResizeScenario.gesture false ResizeScenario.block
            ResizeScenario.pointerX ResizeScenario.pointerY _ _ _ _);
    vm_compute; discriminate.
Defined.

(** ** What a move tick leaves alone *)

(** X22.  A move tick never starts or ends a gesture and never changes
    the grab offset; a tick of a unit or block drag changes at most the
    local position, a resize tick at most the local size, and a door tick
    at most the local door wall and position. *)
Theorem X22_move_frame (p : Props) (s : State) (svgPx svgPy : Q) :
  let s' := fst (handleMouseMove p s svgPx svgPy) in
  dragging s' = dragging s /\ dragOffset s' = dragOffset s /\
  match dragging s with
  | None => s' = s
  | Some d =>
      match dragType d with
      | drag_unit | drag_block =>
          localSize s' = localSize s /\
          localDoorWall s' = localDoorWall s /\
          localDoorPosition s' = localDoorPosition s
      | resize_unit | resize_block =>
          localPosition s' = localPosition s /\
          localDoorWall s' = localDoorWall s /\
          localDoorPosition s' = localDoorPosition s
      | drag_door =>
          localPosition s' = localPosition s /\ localSize s' = localSize s
      end
  end.
Proof.
  cbv zeta. unfold handleMouseMove.
  destruct (dragging s) as [d|] eqn:Hd; [|simpl; rewrite Hd; tauto].
  destruct (dragType d), (truthyId (dragId d)) as [i|];
    try (simpl; rewrite Hd; tauto).
  - destruct (findById (units p) i) as [unit|]; [|simpl; rewrite Hd; tauto].
    destruct (dragFinal p s (isValidPositionUnit p unit) unit svgPx svgPy)
      as [[cx cy] [fx fy]].
    destruct (Num.neqb fx cx || Num.neqb fy cy); simpl; rewrite Hd; tauto.
  - destruct (findById (blocks p) i) as [block|]; [|simpl; rewrite Hd; tauto].
    destruct (dragFinal p s (isValidPositionBlock p block) block svgPx svgPy)
      as [[cx cy] [fx fy]].
    destruct (Num.neqb fx cx || Num.neqb fy cy); simpl; rewrite Hd; tauto.
  - cbv zeta.
    destruct (closest _) as [[newWall dist]|]; [|simpl; rewrite Hd; tauto].
    destruct (wallTable p newWall _ _) as [[len off] pos].
    simpl; rewrite Hd; tauto.
  - cbv zeta.
    destruct (closest _) as [[newWall dist]|]; [|simpl; rewrite Hd; tauto].
    destruct (wallTable p newWall _ _) as [[len off] pos].
    simpl; rewrite Hd; tauto.
  - destruct (handle d); cbn [negb]; cbv iota; [|simpl; rewrite Hd; tauto].
    destruct (proposedSize p d svgPx svgPy) as [nw nh].
    destruct (findById (units p) i) as [el|];
      [destruct (resizeElement p s true el nw nh)|];
      simpl; rewrite Hd; tauto.
  - destruct (handle d); cbn [negb]; cbv iota; [|simpl; rewrite Hd; tauto].
    destruct (proposedSize p d svgPx svgPy) as [nw nh].
    destruct (findById (blocks p) i) as [el|];
      [destruct (resizeElement p s false el nw nh)|];
      simpl; rewrite Hd; tauto.
Qed.

(** ** Clicks without a move *)

(** X23.  A press on a unit followed by a release, with no move between,
    still persists: [onUnitMoveEnd] is called once with the unit's id and
    its own position.  The same holds for the resize handle, which calls
    [onUnitResize] with the unit's own size. *)
Theorem X23_click_persists (p : Props) (h : Handlers) (s : State)
    (unit : Placed) (svgPx svgPy : Q) :
  canEdit h = true -> onUnitMoveEnd h = true -> onUnitResize h = true ->
  id unit <> EmptyString ->
  snd (fst (handleMouseUp h (handleUnitMouseDown p h s unit svgPx svgPy)))
  = [CallUnitMoveEnd (id unit) (x unit) (y unit)] /\
  snd (fst (handleMouseUp h (handleUnitResizeMouseDown h s unit svgPx svgPy)))
  = [CallUnitResize (id unit) (width unit) (height unit)].
Proof.
  intros He Hm Hr Hid.
  assert (Ht : truthyId (Some (id unit)) = Some (id unit)).
  { destruct (id unit); [congruence | reflexivity]. }
  unfold handleUnitMouseDown, handleUnitResizeMouseDown.
  rewrite He, Hm, Hr. rewrite andb_false_r. cbn [negb orb]. cbv zeta.
  unfold handleMouseUp, draggingIs, draggingId. simpl dragging.
  cbn [dragType dragId]. rewrite Ht.
  simpl localPosition. simpl localSize. simpl localDoorPosition.
  rewrite Hm, Hr. cbn [andb posX posY sizeWidth sizeHeight fst snd].
  destruct (localDoorPosition s), (localSize s), (localPosition s);
    split; reflexivity.
Qed.

(** A click on unit A of the drag scenario. *)
Lemma X23_click_persists_witness :
  snd (fst (handleMouseUp (mkHandlers true true true true true true None)
              (handleUnitMouseDown DragScenario.props
                 (mkHandlers true true true true true true None)
                 DragScenario.state DragScenario.unitA 150 50)))
  = [CallUnitMoveEnd "A" 0 0].
Proof.
  refine (proj1 (X23_click_persists DragScenario.props
                   (mkHandlers true true true true true true None)
                   DragScenario.state DragScenario.unitA 150 50
                   eq_refl eq_refl eq_refl _)).
  discriminate.
Defined.


